(** * Acquisition pipeline of the stock monitor: downloader_jp / downloader_us /
      downloader_cn

    A shallow embedding of the three market downloaders and the properties of
    their catalog resolution, status ledger (manifest), cache check,
    per-target download with retries and main loops, with the analyzer's
    reading of artifact names.

    Conventions of the embedding.
    - Status values are Python strings and stay strings here; the status
      domain is a property to be proved, not a type.
    - A pandas frame of listing rows or ledger rows is a list of records, in
      row order.  Row labels of the ledger are its positions.
    - A function that touches files receives the file contents it reads and
      returns the contents it leaves behind.
    - Code that can raise runs in a state-and-exception monad; [exn] stands
      for instances of Python's [Exception], which is what the fetch and the
      file operations raise.  Interpreter signals (KeyboardInterrupt) are
      modelled only where the source handles them, in the loop of [JP.main].
    - Writing the list file or the manifest is taken to succeed; writing an
      artifact may raise, as may the fetch.
    - [time.sleep] never fails; its argument range is logged (in tenths of a
      second) so that the different waits can be told apart.
    - The pool runs every submitted task; the order in which the results
      reach the loop of [JP.main] is a parameter of the run. *)

From stdpp Require Import base list strings gmap pretty.
From Stdlib Require Import Ascii.

Local Open Scope string_scope.
Local Open Scope nat_scope.
Local Open Scope list_scope.

(** ** Python string primitives used by the sources *)
Module Py.

(** [s.startswith(p)] *)
Definition startswith (s p : string) : bool := String.prefix p s.

(** [s.endswith(suf)] *)
Definition endswith (s suf : string) : bool :=
  let n := String.length s in
  let k := String.length suf in
  (k <=? n) && String.eqb (String.substring (n - k) k s) suf.

(** [s.split(sep)[0]] for a one-character separator *)
Fixpoint split_head (sep : ascii) (s : string) : string :=
  match s with
  | EmptyString => EmptyString
  | String c s' => if Ascii.eqb c sep then EmptyString
                   else String c (split_head sep s')
  end.

(** [a, b = s.split(sep, 1)]: [None] is the ValueError of the unpacking
    when [sep] does not occur in [s]. *)
Fixpoint split1 (sep : ascii) (s : string) : option (string * string) :=
  match s with
  | EmptyString => None
  | String c s' =>
      if Ascii.eqb c sep then Some (EmptyString, s')
      else match split1 sep s' with
           | Some (a, b) => Some (String c a, b)
           | None => None
           end
  end.

(** [sub in s] *)
Fixpoint contains (sub s : string) : bool :=
  String.prefix sub s ||
  match s with
  | EmptyString => false
  | String _ s' => contains sub s'
  end.

(** [s.zfill(width)] on a string without sign *)
Definition zfill (width : nat) (s : string) : string :=
  String.concat "" (replicate (width - String.length s) "0") +:+ s.

(** [x in xs] / [Series.isin(xs)] on strings *)
Definition isin (x : string) (xs : list string) : bool :=
  bool_decide (x ∈ xs).


(** [s.rfind(c)]: the position of the last [c], if there is one *)
Fixpoint rfind (c : ascii) (s : string) : option nat :=
  match s with
  | EmptyString => None
  | String a s' =>
      match rfind c s' with
      | Some i => Some (S i)
      | None => if Ascii.eqb a c then Some 0 else None
      end
  end.

(** [Path(name).stem] for a file name without directory: the name without
    its last suffix ([i = name.rfind('.')], cut when [0 < i < len(name) - 1]). *)
Definition stem (name : string) : string :=
  match rfind "." name with
  | Some i =>
      if (0 <? i) && (i <? String.length name - 1)
      then String.substring 0 i name else name
  | None => name
  end.

(** [c in s] for a character [c] *)
Fixpoint char_in (c : ascii) (s : string) : bool :=
  match s with
  | EmptyString => false
  | String a s' => Ascii.eqb a c || char_in c s'
  end.

End Py.

(** ** Effects of a download: a state-and-exception monad *)

(** An instance of [Exception] with its [str(e)]. *)
Inductive exn : Type := Exception (msg : string).

Inductive result (A : Type) : Type :=
| Ret (a : A)
| Raise (e : exn).
Arguments Ret {A} a.
Arguments Raise {A} e.

(** What [tk.history] hands back: [None], or a frame of rows (possibly
    empty).  A row is kept as its CSV line. *)
Definition Frame : Type := option (list string).

(** [df is not None and not df.empty] *)
Definition has_rows (df : Frame) : bool :=
  match df with
  | Some (_ :: _) => true
  | _ => false
  end.

(** The observable effects of one per-target download. *)
Record Net : Type := mkNet {
  calls : nat;                        (* invocations of the fetch function *)
  sleeps : list (nat * nat);          (* ranges slept, tenths of a second *)
  written : list (string * Frame)     (* artifacts written, path and frame *)
}.

Definition net0 : Net := mkNet 0 [] [].

Definition M (A : Type) : Type := Net → result A * Net.

Definition ret {A} (a : A) : M A := λ s, (Ret a, s).
Definition raise {A} (e : exn) : M A := λ s, (Raise e, s).
Definition bind {A B} (m : M A) (k : A → M B) : M B :=
  λ s, match m s with
       | (Ret a, s') => k a s'
       | (Raise e, s') => (Raise e, s')
       end.

(** [try: body  except Exception as e: handler e]; the state reached when the
    exception was raised is kept. *)
Definition try_except {A} (body : M A) (handler : exn → M A) : M A :=
  λ s, match body s with
       | (Ret a, s') => (Ret a, s')
       | (Raise e, s') => handler e s'
       end.

Declare Scope py_scope.
Delimit Scope py_scope with py.
Notation "'let!' x ':=' m 'in' k" := (bind m (λ x, k))
  (at level 10, x pattern, m at level 100, k at level 200) : py_scope.
Notation "'do!' m 'in' k" := (bind m (λ _, k))
  (at level 10, m at level 100, k at level 200) : py_scope.
Local Open Scope py_scope.

(** [time.sleep(random.uniform(lo, hi))] *)
Definition sleep (lo hi : nat) : M unit :=
  λ s, (Ret tt, mkNet (calls s) (sleeps s ++ [(lo, hi)]) (written s)).

(** A [for] loop whose body may [return]: the body yields [Some r] when it
    returns [r] from the enclosing function and [None] when the loop goes
    on; [after] is the code that follows the loop. *)
Fixpoint for_each {A R} (xs : list A) (body : A → M (option R))
    (after : M R) : M R :=
  match xs with
  | [] => after
  | x :: xs' =>
      bind (body x) (λ r, match r with
                          | Some v => ret v
                          | None => for_each xs' body after
                          end)
  end.

(** The collaborators of a download, for one target: the outcome of the
    n-th invocation of [yf.Ticker(symbol).history] and the outcome of
    writing a frame to a path ([None]: written, [Some e]: the write raised
    [e]). *)
Record Provider : Type := mkProvider {
  history : string → nat → result Frame;
  to_csv : string → Frame → option exn
}.

Definition fetch (p : Provider) (symbol : string) : M Frame :=
  λ s, (history p symbol (calls s),
        mkNet (S (calls s)) (sleeps s) (written s)).

Definition save (p : Provider) (path : string) (df : Frame) : M unit :=
  λ s, match to_csv p path df with
       | None => (Ret tt, mkNet (calls s) (sleeps s) (written s ++ [(path, df)]))
       | Some e => (Raise e, s)
       end.

(** A local artifact as [os.path] sees it. *)
Record FileStat : Type := mkStat {
  st_mtime_date : nat;    (* date of the last modification, as a day number *)
  st_size : nat           (* bytes *)
}.

(** The run statistics handed to the notifier. *)
Record Stats : Type := mkStats { total : nat; success : nat; fail : nat }.


(** ** downloader_jp.py: list, manifest, download with retries, main loop *)
Module JP.

Record Target : Type := mkTarget {
  code : string;
  name : string;
  board : string
}.

(** A row of the manifest: the listing columns and [status]. *)
Record Entry : Type := mkEntry {
  target : Target;
  status : string
}.

Definition with_status (s : string) (t : Target) : Entry := mkEntry t s.

Definition set_status (s : string) (e : Entry) : Entry :=
  mkEntry (target e) s.

(** *** get_tse_list *)

Definition threshold : nat := 3800.

(** [drop_duplicates(subset=['code'])]: the first row of every code is
    kept, in order. *)
Fixpoint drop_duplicates_from (seen : list string) (rows : list Target)
    : list Target :=
  match rows with
  | [] => []
  | r :: rows' =>
      if Py.isin (code r) seen then drop_duplicates_from seen rows'
      else r :: drop_duplicates_from (code r :: seen) rows'
  end.

Definition drop_duplicates (rows : list Target) : list Target :=
  drop_duplicates_from [] rows.

(** [listing] is what lines 47-61 produce: the rows [res] read from the
    exchange's file, or the exception raised on the way.  [list_all_csv]
    is the content of LIST_ALL_CSV when the file exists.  The result is
    the returned frame and the content of LIST_ALL_CSV afterwards.
    (An empty [res] ends in the same place whether pandas treats it in
    line 63 or raises there: the cached list if there is one, an empty
    frame otherwise.) *)
Definition get_tse_list (listing : result (list Target))
    (list_all_csv : option (list Target))
    : list Target * option (list Target) :=
  match listing with
  | Ret res =>
      let final_df := drop_duplicates res in
      if length final_df <? threshold then
        match list_all_csv with
        | Some cached => (cached, list_all_csv)
        | None => (final_df, list_all_csv)
        end
      else (final_df, Some final_df)
  | Raise _ =>
      match list_all_csv with
      | Some cached => (cached, list_all_csv)
      | None => ([], list_all_csv)
      end
  end.

(** *** build_manifest *)

(** Lines 82-89, with [mf] the manifest read from MANIFEST_CSV: the rows
    of [df_list] whose code is not in [mf] are appended as [pending].
    (Appending an empty selection is what skipping the [concat] gives.) *)
Definition merge (mf : list Entry) (df_list : list Target) : list Entry :=
  let new_codes :=
    filter (λ t, Py.isin (code t) (code ∘ target <$> mf) = false) df_list in
  mf ++ (with_status "pending" <$> new_codes).

(** Line 94: the codes that already have an artifact in DATA_DIR. *)
Definition existing_files (listdir : list string) : gset string :=
  list_to_set
    (Py.split_head "." <$> filter (λ f, Py.endswith f ".T.csv" = true) listdir).

(** Lines 91-95: the manifest of a first run. *)
Definition fresh_manifest (listdir : list string) (df_list : list Target)
    : list Entry :=
  (λ t, mkEntry t (if bool_decide (code t ∈ existing_files listdir)
                   then "done" else "pending")) <$> df_list.

(** [manifest_csv] is the content of MANIFEST_CSV when the file exists and
    [listdir] the names in DATA_DIR.  The result is the returned manifest
    and the content of MANIFEST_CSV afterwards. *)
Definition build_manifest (manifest_csv : option (list Entry))
    (listdir : list string) (df_list : list Target)
    : list Entry * option (list Entry) :=
  match df_list with
  | [] => ([], manifest_csv)
  | _ :: _ =>
      match manifest_csv with
      | Some mf => (merge mf df_list, manifest_csv)
      | None =>
          let m := fresh_manifest listdir df_list in
          (m, Some m)
      end
  end.

(** *** download_one *)

Definition max_retries : nat := 3.

Definition download_one (p : Provider) (idx : nat) (row : Entry)
    : M (nat * string) :=
  let code := Py.zfill 4 (code (target row)) in
  let symbol := code +:+ ".T" in
  let out_path := code +:+ ".T.csv" in
  for_each (seq 0 max_retries)
    (λ attempt,
       try_except
         (do! sleep 5 15 in
          let! df_raw := fetch p symbol in
          if has_rows df_raw then
            do! save p out_path df_raw in
            ret (Some (idx, "done"))
          else if attempt =? max_retries - 1 then ret (Some (idx, "empty"))
          else ret None)
         (λ _, if attempt =? max_retries - 1 then ret (Some (idx, "failed"))
               else do! sleep 30 70 in ret None))
    (ret (idx, "failed")).

(** *** Writing the manifest: [mf.to_csv(MANIFEST_CSV, index=False)]

    pandas opens the path itself for writing, which empties the file, and
    then emits the rows; the source uses no temporary file and no rename.
    The file is followed row by row: a buffered writer may flush several
    rows at once, so the contents met in practice are among the ones
    listed by [observable]. *)
Inductive FileOp : Type :=
| Truncate
| AppendRow (e : Entry).

Definition apply_op (file : option (list Entry)) (op : FileOp)
    : option (list Entry) :=
  match op with
  | Truncate => Some []
  | AppendRow e => Some (default [] file ++ [e])
  end.

Definition run_ops (ops : list FileOp) (file : option (list Entry))
    : option (list Entry) :=
  foldl apply_op file ops.

Definition to_csv_ops (mf : list Entry) : list FileOp :=
  Truncate :: (AppendRow <$> mf).

(** A write that runs to its end. *)
Definition manifest_to_csv (mf : list Entry) (file : option (list Entry))
    : option (list Entry) :=
  run_ops (to_csv_ops mf) file.


(** *** main *)

(** Line 151: the rows to process, with their labels. *)
Definition todo (mf : list Entry) : list (nat * Entry) :=
  filter (λ ie, Py.isin (status ie.2) ["done"; "empty"] = false)
         (imap pair mf).

Record Loop : Type := mkLoop {
  l_mf : list Entry;                  (* the manifest in memory *)
  l_csv : option (list Entry);        (* MANIFEST_CSV *)
  l_count : nat;
  l_persists : list (list Entry)      (* every manifest handed to to_csv *)
}.

(** Lines 161-166, for one completed future. *)
Definition record (st : Loop) (r : nat * string) : Loop :=
  let mf := alter (set_status r.2) r.1 (l_mf st) in
  let count := S (l_count st) in
  if count mod 100 =? 0
  then mkLoop mf (manifest_to_csv mf (l_csv st)) count (l_persists st ++ [mf])
  else mkLoop mf (l_csv st) count (l_persists st).

(** What can leave the [for] loop of line 160 early. *)
Inductive Signal : Type :=
| KeyboardInterrupt
| Propagated (e : exn).

(** Lines 160-166.  [interrupt = Some k]: the user interrupts while the
    loop waits for its (k+1)-th result.  [f.result()] re-raises what the
    worker raised. *)
Fixpoint consume (results : list (result (nat * string)))
    (interrupt : option nat) (st : Loop) : Loop * option Signal :=
  match interrupt with
  | Some 0 => (st, Some KeyboardInterrupt)
  | _ =>
      match results with
      | [] => (st, None)
      | Ret r :: rest => consume rest (pred <$> interrupt) (record st r)
      | Raise e :: _ => (st, Some (Propagated e))
      end
  end.

(** Line 170. *)
Definition finally (st : Loop) : Loop :=
  mkLoop (l_mf st) (manifest_to_csv (l_mf st) (l_csv st)) (l_count st)
         (l_persists st ++ [l_mf st]).

(** Lines 176-185. *)
Definition summarize (mf : list Entry) : Stats :=
  let total_expected := length mf in
  let effective_success := length (filter (λ e, status e = "done") mf) in
  mkStats total_expected effective_success
          (total_expected - effective_success).

(** What a run meets: the listing, the names in DATA_DIR, the behaviour of
    the provider for the task of each manifest row, the order in which the
    futures complete (positions in the list of submitted tasks) and the
    moment of a user interrupt, if any. *)
Record Env : Type := mkEnv {
  listing : result (list Target);
  listdir : list string;
  yf : nat → Provider;
  schedule : list nat;
  interrupt : option nat
}.

Record Disk : Type := mkDisk {
  list_all_csv : option (list Target);
  manifest_csv : option (list Entry)
}.

(** What a run leaves: the value returned (or the exception that ends
    [main]), the two files, the manifest in memory if one was built, the
    tasks submitted to the pool with the effects of each, and the
    manifests handed to [to_csv] by the loop. *)
Record Run : Type := mkRun {
  returned : result (option Stats);
  disk : Disk;
  ledger : option (list Entry);
  submitted : list (nat * Entry);
  nets : list Net;
  persists : list (list Entry)
}.

Definition main (env : Env) (d : Disk) : Run :=
  let '(df_list, list_csv) := get_tse_list (listing env) (list_all_csv d) in
  match df_list with
  | [] => mkRun (Ret None) (mkDisk list_csv (manifest_csv d)) None [] [] []
  | _ :: _ =>
      let '(mf, m_csv) :=
        build_manifest (manifest_csv d) (listdir env) df_list in
      let td := todo mf in
      match td with
      | [] =>
          mkRun (Ret (Some (summarize mf))) (mkDisk list_csv m_csv)
                (Some mf) [] [] []
      | _ :: _ =>
          let futures :=
            (λ item, download_one (yf env item.1) item.1 item.2 net0) <$> td in
          let completed :=
            omap (λ k, fst <$> futures !! k) (schedule env) in
          let '(st, sig) :=
            consume completed (interrupt env) (mkLoop mf m_csv 0 []) in
          let st' := finally st in
          mkRun (match sig with
                 | Some (Propagated e) => Raise e
                 | _ => Ret (Some (summarize (l_mf st')))
                 end)
                (mkDisk list_csv (l_csv st'))
                (Some (l_mf st')) td (snd <$> futures) (l_persists st')
      end
  end.

End JP.

(** ** downloader_us.py *)
Module US.

Definition threshold : nat := 3000.

(** CACHE_LIST_PATH: the date of its last modification and the list in it. *)
Record ListCache : Type := mkCache {
  cache_date : nat;
  cache_data : list string
}.

(** Lines 41-50: today's cache, if it is large enough. *)
Definition todays_cache (today : nat) (cache : option ListCache)
    : option (list string) :=
  match cache with
  | Some c =>
      if bool_decide (cache_date c = today)
         && (threshold <=? length (cache_data c))
      then Some (cache_data c) else None
  | None => None
  end.

(** [nasdaq] and [other] are the rows that the two sites contributed to
    [all_rows] (none for a site that failed).  [list(set(all_rows))] keeps
    one copy of each row, in an order of Python's choosing. *)
Definition get_full_stock_list (today : nat) (cache : option ListCache)
    (nasdaq other : list string) : list string * option ListCache :=
  match todays_cache today cache with
  | Some data => (data, cache)
  | None =>
      let all_rows := nasdaq ++ other in
      let final_list := elements (list_to_set all_rows : gset string) in
      if threshold <=? length final_list then
        (final_list, Some (mkCache today final_list))
      else
        match cache with
        | Some c => (cache_data c, cache)
        | None => (final_list, cache)
        end
  end.

(** Line 102. *)
Definition cache_hit (fs : gmap string FileStat) (out_path : string) : bool :=
  match fs !! out_path with
  | Some st => 1000 <? st_size st
  | None => false
  end.

(** The result dictionary: its "status" and, when present, its "tkr". *)
Definition Outcome : Type := string * option string.

(** [safe_name] is the clean-up of line 99 (Python's Unicode-aware
    [isalnum] and [strip]). *)
Definition download_stock_data (safe_name : string → string)
    (fs : gmap string FileStat) (p : Provider) (item : string)
    : M Outcome :=
  try_except
    (match Py.split1 "&" item with
     | None => raise (Exception "not enough values to unpack")
     | Some (yf_tkr, name) =>
         let out_path := yf_tkr +:+ "_" +:+ safe_name name +:+ ".csv" in
         if cache_hit fs out_path then ret ("exists", Some yf_tkr)
         else
           do! sleep 5 15 in
           for_each (seq 0 2)
             (λ _ : nat,
                let! r :=
                  try_except
                    (let! hist := fetch p yf_tkr in
                     if has_rows hist then
                       do! save p out_path hist in
                       ret (Some ("success", Some yf_tkr))
                     else ret None)
                    (λ e, match e with
                          | Exception msg =>
                              if Py.contains "Rate limited" msg
                              then do! sleep 300 600 in ret None
                              else ret None
                          end) in
                match r with
                | Some v => ret (Some v)
                | None => do! sleep 20 50 in ret None
                end)
             (ret ("empty", Some yf_tkr))
     end)
    (λ _, ret ("error", None)).

(** *** classify_security *)

Definition exclude_keywords : list string :=
  ["WARRANT"; "RIGHTS"; "UNIT"; "PREFERRED"; "DEPOSITARY"; "ADR"; "FOREIGN";
   "DEBENTURE"].

(** [upper] is Python's [str.upper]. *)
Definition classify_security (upper : string → string) (name : string)
    (is_etf : bool) : string :=
  if is_etf then "Exclude"
  else
    let n_upper := upper name in
    if existsb (λ kw, Py.contains kw n_upper) exclude_keywords
    then "Exclude" else "Common Stock".

(** *** The rows of one site (lines 60-73) *)



(** *** main *)

(** [stats[key] += 1]: a KeyError when the key is missing. *)
Definition bump (key : string) (stats : gmap string nat)
    : result (gmap string nat) :=
  match stats !! key with
  | Some n => Ret (<[key := n + 1]> stats)
  | None => Raise (Exception "KeyError")
  end.

(** Lines 141-144: the loop over the completed futures. *)
Fixpoint tally (results : list (result Outcome)) (stats : gmap string nat)
    : result (gmap string nat) :=
  match results with
  | [] => Ret stats
  | Ret res :: rest =>
      match bump res.1 stats with
      | Ret stats' => tally rest stats'
      | Raise e => Raise e
      end
  | Raise e :: _ => Raise e
  end.

Definition stats0 : gmap string nat :=
  {[ "success" := 0; "exists" := 0; "empty" := 0; "error" := 0 ]}.

(** [stats[key]] for a key of [stats0], as the report of line 147 reads
    it. *)
Definition count (key : string) (stats : gmap string nat) : nat :=
  default 0 (stats !! key).

(** What a run meets: the clean-up of names, the data directory as the
    k-th task finds it, the behaviour of the provider for the k-th task and
    the order in which the futures complete (positions in [items]). *)
Record Env : Type := mkEnv {
  safe_name : string → string;
  fs : nat → gmap string FileStat;
  yf : nat → Provider;
  schedule : list nat
}.

(** What a run leaves: the items, the list cache, the counters at the
    report ([None] when the run stopped for want of a list) or the
    exception that ended the loop, and the effects of each task. *)
Record Run : Type := mkRun {
  items : list string;
  list_cache : option ListCache;
  stats : result (option (gmap string nat));
  nets : list Net
}.

Definition main (today : nat) (cache : option ListCache)
    (nasdaq other : list string) (env : Env) : Run :=
  let '(items, cache') := get_full_stock_list today cache nasdaq other in
  match items with
  | [] => mkRun items cache' (Ret None) []
  | _ :: _ =>
      let futures :=
        imap (λ k it, download_stock_data (safe_name env) (fs env k)
                        (yf env k) it net0) items in
      let completed := omap (λ k, fst <$> futures !! k) (schedule env) in
      mkRun items cache'
            (match tally completed stats0 with
             | Ret stats => Ret (Some stats)
             | Raise e => Raise e
             end)
            (snd <$> futures)
  end.

End US.

(** ** downloader_cn.py *)
Module CN.

Record ListCache : Type := mkCache {
  cache_date : nat;
  cache_data : list string
}.

(** [spot_em] and [info_a] are the lists built from the two akshare
    interfaces, or the exception met on the way. *)
Definition get_cn_list (today : nat) (cache : option ListCache)
    (spot_em info_a : result (list string))
    : list string * option ListCache :=
  let backup :=
    match info_a with
    | Ret res_bak => (res_bak, cache)
    | Raise _ => (["600519&貴州茅台"; "000001&平安銀行"], cache)
    end in
  let query :=
    match spot_em with
    | Ret res =>
        if 1000 <? length res then (res, Some (mkCache today res))
        else backup
    | Raise _ => backup
    end in
  match cache with
  | Some c =>
      if bool_decide (cache_date c = today) then (cache_data c, cache)
      else query
  | None => query
  end.

(** Lines 77-79. *)
Definition cache_hit (today : nat) (fs : gmap string FileStat)
    (out_path : string) : bool :=
  match fs !! out_path with
  | Some st => bool_decide (st_mtime_date st = today) && (1000 <? st_size st)
  | None => false
  end.

(** The result dictionary: its "status" and its "code". *)
Definition Outcome : Type := string * string.

Definition download_one (today : nat) (fs : gmap string FileStat)
    (p : Provider) (item : string) : M Outcome :=
  try_except
    (match Py.split1 "&" item with
     | None => raise (Exception "not enough values to unpack")
     | Some (code, name) =>
         let symbol :=
           if Py.startswith code "6" then code +:+ ".SS" else code +:+ ".SZ" in
         let out_path := code +:+ "_" +:+ name +:+ ".csv" in
         if cache_hit today fs out_path then ret ("exists", code)
         else
           do! sleep 5 12 in
           let! hist := fetch p symbol in
           if has_rows hist then
             do! save p out_path hist in
             ret ("success", code)
           else ret ("empty", code)
     end)
    (λ _, ret ("error", Py.split_head "&" item)).

(** *** The list built from the first interface (lines 40-44) *)



(** *** main *)

(** [stats[key] += 1]: a KeyError when the key is missing. *)
Definition bump (key : string) (stats : gmap string nat)
    : result (gmap string nat) :=
  match stats !! key with
  | Some n => Ret (<[key := n + 1]> stats)
  | None => Raise (Exception "KeyError")
  end.

(** Lines 109-116: the loop over the completed futures; [n] is the number
    of results handled so far ([pbar.n]) and [naps] the number of pauses
    taken. *)
Fixpoint tally (results : list (result Outcome)) (n naps : nat)
    (stats : gmap string nat) : result (gmap string nat * nat) :=
  match results with
  | [] => Ret (stats, naps)
  | Ret res :: rest =>
      match bump res.1 stats with
      | Ret stats' =>
          tally rest (S n) (if S n mod 100 =? 0 then S naps else naps) stats'
      | Raise e => Raise e
      end
  | Raise e :: _ => Raise e
  end.

Definition stats0 : gmap string nat :=
  {[ "success" := 0; "exists" := 0; "empty" := 0; "error" := 0 ]}.

(** [stats[key]] for a key of [stats0]. *)
Definition count (key : string) (stats : gmap string nat) : nat :=
  default 0 (stats !! key).

Record Env : Type := mkEnv {
  fs : nat → gmap string FileStat;
  yf : nat → Provider;
  schedule : list nat
}.

(** What a run leaves: the items, the list cache, the report returned with
    the number of pauses taken (or the exception that ended the loop), and
    the effects of each task. *)
Record Run : Type := mkRun {
  items : list string;
  list_cache : option ListCache;
  report : result (Stats * nat);
  nets : list Net
}.

Definition main (today : nat) (cache : option ListCache)
    (spot_em info_a : result (list string)) (env : Env) : Run :=
  let '(items, cache') := get_cn_list today cache spot_em info_a in
  match items with
  | [] => mkRun items cache' (Ret (mkStats 0 0 0, 0)) []
  | _ :: _ =>
      let futs :=
        imap (λ k it, download_one today (fs env k) (yf env k) it net0)
             items in
      let completed := omap (λ k, fst <$> futs !! k) (schedule env) in
      mkRun items cache'
            (match tally completed 0 0 stats0 with
             | Ret (stats, naps) =>
                 Ret (mkStats (length items)
                              (count "success" stats + count "exists" stats)
                              (count "error" stats + count "empty" stats),
                      naps)
             | Raise e => Raise e
             end)
            (snd <$> futs)
  end.

End CN.

(** ** analyzer.py: the name of an artifact read back *)
Module Analyzer.

(** Line 90: ticker and company name from the stem of an artifact's name. *)
Definition ticker_and_name (filename : string) : string * string :=
  match Py.split1 "_" filename with
  | Some (ticker, company_name) => (ticker, company_name)
  | None => (filename, filename)
  end.

End Analyzer.

(** * Properties *)

(** ** Vocabulary of the statements *)

(** The statuses a manifest row may carry. *)
Definition status_domain : list string := ["pending"; "done"; "empty"; "failed"].

(** The statuses reported by the US and CN downloads, which keep no
    manifest. *)
Definition us_statuses : list string := ["exists"; "success"; "empty"; "error"].

(** Every row of the manifest has a status of the domain. *)
Definition ledger_ok (mf : list JP.Entry) : Prop :=
  Forall (λ e, JP.status e ∈ status_domain) mf.

(** [m] never raises, and what it returns satisfies [P]. *)
Definition total_in {A} (P : A → Prop) (m : M A) : Prop :=
  ∀ s, ∃ v s', m s = (Ret v, s') ∧ P v.

(** Whatever [m] returns satisfies [P] (it may raise). *)
Definition returns_in {A} (P : A → Prop) (m : M A) : Prop :=
  ∀ s v s', m s = (Ret v, s') → P v.

(** What the body of a loop may hand back: nothing (the loop goes on) or a
    returned value satisfying [P]. *)
Definition when_returned {R} (P : R → Prop) (o : option R) : Prop :=
  match o with
  | Some v => P v
  | None => True
  end.

(** A result of the JP download for the row labelled [idx]. *)
Definition jp_outcome (idx : nat) (r : nat * string) : Prop :=
  r.1 = idx ∧ r.2 ∈ ["done"; "empty"; "failed"].

(** A provider whose every request times out. *)
Definition timing_out : Provider :=
  mkProvider (λ _ _, Raise (Exception "Read timed out.")) (λ _ _, None).

(** The manifest in memory, the one on disk and every one written so far
    are within the domain. *)
Definition loop_ok (st : JP.Loop) : Prop :=
  ledger_ok (JP.l_mf st)
  ∧ (∀ m, JP.l_csv st = Some m → ledger_ok m)
  ∧ Forall ledger_ok (JP.l_persists st).

(** The source gave nothing valid: it raised, or its list is below the
    threshold. *)
Definition listing_invalid (listing : result (list JP.Target)) : Prop :=
  match listing with
  | Ret res => length (JP.drop_duplicates res) < JP.threshold
  | Raise _ => True
  end.

(** The source gave no row at all. *)
Definition listing_no_rows (listing : result (list JP.Target)) : Prop :=
  match listing with
  | Ret res => res = []
  | Raise _ => True
  end.

(** The codes of a manifest, row by row. *)
Definition manifest_codes (mf : list JP.Entry) : list string :=
  JP.code ∘ JP.target <$> mf.

(** The manifest after the results [rs] have been written into it, one
    after the other ([mf.at[idx, "status"] = status]). *)
Definition apply_results (mf : list JP.Entry) (rs : list (nat * string))
    : list JP.Entry :=
  foldl (λ m r, alter (JP.set_status r.2) r.1 m) mf rs.

(** The result of the task submitted for a row to process. *)
Definition jp_task (yf : nat → Provider) (item : nat * JP.Entry)
    : result (nat * string) :=
  (JP.download_one (yf item.1) item.1 item.2 net0).1.

(** How one attempt of a download ends: the frame fetched had rows and was
    written; the fetch came back without rows; or the fetch or the write
    raised. *)
Inductive Attempt : Type :=
| Saved (df : Frame)
| NoRows
| Failed.

(** The end of the attempt made with the [n]-th invocation of the fetch. *)
Definition attempt (p : Provider) (symbol out_path : string) (n : nat)
    : Attempt :=
  match history p symbol n with
  | Ret df =>
      if has_rows df then
        match to_csv p out_path df with
        | None => Saved df
        | Some _ => Failed
        end
      else NoRows
  | Raise _ => Failed
  end.

(** The ticker symbol and the artifact of a manifest row (lines 103-105 of
    downloader_jp.py). *)
Definition jp_symbol (row : JP.Entry) : string :=
  Py.zfill 4 (JP.code (JP.target row)) +:+ ".T".

Definition jp_path (row : JP.Entry) : string :=
  Py.zfill 4 (JP.code (JP.target row)) +:+ ".T.csv".


(** Every counter of the report is present. *)
Definition has_counters (st : gmap string nat) : Prop :=
  ∀ k, k ∈ us_statuses → is_Some (st !! k).

(** The sum of the four counters. *)
Definition counters_total (st : gmap string nat) : nat :=
  default 0 (st !! "success") + default 0 (st !! "exists")
  + default 0 (st !! "empty") + default 0 (st !! "error").

(** Membership in an explicit list of literals. *)
Ltac in_list :=
  unfold status_domain, us_statuses;
  repeat (rewrite elem_of_cons); rewrite ?elem_of_nil; tauto.

(** ** Manifest: merge and first construction *)

Section manifest.
Implicit Types (mf : list JP.Entry) (df_list : list JP.Target).

Lemma isin_true x xs : Py.isin x xs = true ↔ x ∈ xs.
Proof. unfold Py.isin. apply bool_decide_eq_true. Qed.

Lemma isin_false x xs : Py.isin x xs = false ↔ x ∉ xs.
Proof. unfold Py.isin. apply bool_decide_eq_false. Qed.

Lemma filter_none {A} (P : A → Prop) `{!∀ x, Decision (P x)} (l : list A) :
  Forall (λ x, ¬ P x) l → filter P l = [].
Proof.
  induction 1 as [|x l Hx _ IH]; [done|].
  by rewrite filter_cons_False.
Qed.

Lemma merge_lookup_old mf df_list i e :
  mf !! i = Some e → JP.merge mf df_list !! i = Some e.
Proof. intros H. unfold JP.merge. by apply lookup_app_l_Some. Qed.

Lemma merge_lookup_new mf df_list i e :
  JP.merge mf df_list !! i = Some e → length mf ≤ i →
  JP.status e = "pending" ∧ JP.target e ∈ df_list
  ∧ JP.code (JP.target e) ∉ (JP.code ∘ JP.target <$> mf).
Proof.
  unfold JP.merge. intros H Hi.
  apply lookup_app_Some in H as [H|[_ H]].
  { apply lookup_lt_Some in H. lia. }
  apply list_lookup_fmap_Some in H as (t & -> & Ht).
  apply list_elem_of_lookup_2, list_elem_of_filter in Ht as [Hnew Hin].
  split; [done|]. split; [done|]. by apply isin_false.
Qed.

Lemma merge_adds_missing mf df_list t :
  t ∈ df_list → JP.code t ∉ (JP.code ∘ JP.target <$> mf) →
  JP.with_status "pending" t ∈ JP.merge mf df_list.
Proof.
  intros Hin Hnew. unfold JP.merge.
  apply elem_of_app. right. apply list_elem_of_fmap_2.
  apply list_elem_of_filter. split; [by apply isin_false | done].
Qed.

(** After a merge every code of the list is in the manifest. *)
Lemma merge_covers mf df_list t :
  t ∈ df_list → JP.code t ∈ (JP.code ∘ JP.target <$> JP.merge mf df_list).
Proof.
  intros Hin.
  destruct (decide (JP.code t ∈ (JP.code ∘ JP.target <$> mf))) as [Hold|Hnew].
  - unfold JP.merge. rewrite fmap_app. apply elem_of_app. by left.
  - apply (merge_adds_missing _ _ _ Hin) in Hnew.
    by apply (list_elem_of_fmap_2 (JP.code ∘ JP.target)) in Hnew.
Qed.

Lemma merge_idempotent mf df_list :
  JP.merge (JP.merge mf df_list) df_list = JP.merge mf df_list.
Proof.
  unfold JP.merge at 1.
  assert (filter (λ t, Py.isin (JP.code t)
            (JP.code ∘ JP.target <$> JP.merge mf df_list) = false) df_list
          = []) as ->.
  { apply filter_none, Forall_forall. intros t Hin Hf.
    apply isin_false in Hf. by apply Hf, merge_covers. }
  by rewrite app_nil_r.
Qed.

Lemma existing_files_spec listdir c :
  c ∈ JP.existing_files listdir ↔
  ∃ f, f ∈ listdir ∧ Py.endswith f ".T.csv" = true ∧ Py.split_head "." f = c.
Proof.
  unfold JP.existing_files. rewrite elem_of_list_to_set, list_elem_of_fmap.
  split.
  - intros (f & -> & Hf). apply list_elem_of_filter in Hf as [? ?]. eauto.
  - intros (f & Hin & He & <-). exists f. split; [done|].
    by apply list_elem_of_filter.
Qed.

Lemma merge_ok mf df_list : ledger_ok mf → ledger_ok (JP.merge mf df_list).
Proof.
  intros H. unfold JP.merge. apply Forall_app. split; [done|].
  apply Forall_fmap, Forall_forall. intros t _. simpl. in_list.
Qed.

Lemma fresh_manifest_ok listdir df_list :
  ledger_ok (JP.fresh_manifest listdir df_list).
Proof.
  unfold JP.fresh_manifest. apply Forall_fmap, Forall_forall. intros t _.
  simpl. case_bool_decide; in_list.
Qed.

Lemma build_manifest_ok m_csv listdir df_list :
  (∀ mf, m_csv = Some mf → ledger_ok mf) →
  ledger_ok (JP.build_manifest m_csv listdir df_list).1
  ∧ ∀ mf, (JP.build_manifest m_csv listdir df_list).2 = Some mf → ledger_ok mf.
Proof.
  intros H. unfold JP.build_manifest.
  destruct df_list as [|t l]; cbn [fst snd]; [split; [constructor | done]|].
  destruct m_csv as [mf|]; cbn [fst snd].
  - split; [apply merge_ok; eauto | done].
  - pose proof (fresh_manifest_ok listdir (t :: l)) as Hok.
    split; [done|]. intros mf [= <-]. exact Hok.
Qed.

End manifest.

(** C1.  Merging a list into a manifest (lines 81-89 of downloader_jp.py)
    keeps every existing row, with its status, at its place; every row it
    adds is [pending] and belongs to a listed target whose code the manifest
    did not have; every listed target whose code was missing gets a
    [pending] row; and merging the same list once more changes nothing: the
    manifest, its length and the statuses are the same.  [build_manifest]
    does exactly this merge when MANIFEST_CSV exists and the list has rows,
    and leaves the file as it was. *)
Theorem merge_pending_and_idempotent
    (mf : list JP.Entry) (df_list : list JP.Target) :
  (∀ i e, mf !! i = Some e → JP.merge mf df_list !! i = Some e)
  ∧ (∀ i e, JP.merge mf df_list !! i = Some e → length mf ≤ i →
       JP.status e = "pending" ∧ JP.target e ∈ df_list
       ∧ JP.code (JP.target e) ∉ (JP.code ∘ JP.target <$> mf))
  ∧ (∀ t, t ∈ df_list → JP.code t ∉ (JP.code ∘ JP.target <$> mf) →
       JP.with_status "pending" t ∈ JP.merge mf df_list)
  ∧ JP.merge (JP.merge mf df_list) df_list = JP.merge mf df_list
  ∧ length (JP.merge (JP.merge mf df_list) df_list)
    = length (JP.merge mf df_list)
  ∧ JP.status <$> JP.merge (JP.merge mf df_list) df_list
    = JP.status <$> JP.merge mf df_list
  ∧ (∀ listdir t rest,
       JP.build_manifest (Some mf) listdir (t :: rest)
       = (JP.merge mf (t :: rest), Some mf)).
Proof.
  split; [intros i e; apply merge_lookup_old|].
  split; [intros i e; apply merge_lookup_new|].
  split; [intros t; apply merge_adds_missing|].
  rewrite merge_idempotent. done.
Qed.

Lemma merge_pending_and_idempotent_witness :
  let t := JP.mkTarget "1301" "Kyokuyo" "T" in
  let u := JP.mkTarget "1332" "Nissui" "T" in
  JP.merge [JP.mkEntry t "failed"] [t; u] !! 0 = Some (JP.mkEntry t "failed")
  ∧ (JP.status (JP.mkEntry u "pending") = "pending"
     ∧ JP.target (JP.mkEntry u "pending") ∈ [t; u]
     ∧ JP.code (JP.target (JP.mkEntry u "pending"))
       ∉ (JP.code ∘ JP.target <$> [JP.mkEntry t "failed"]))
  ∧ JP.with_status "pending" u ∈ JP.merge [JP.mkEntry t "failed"] [t; u].
Proof.
  intros t u.
  destruct (merge_pending_and_idempotent [JP.mkEntry t "failed"] [t; u])
    as (Hold & Hnew & Hadd & _).
  split; [|split].
  - apply Hold. reflexivity.
  - apply (Hnew 1); [reflexivity | simpl; lia].
  - apply Hadd.
    + apply list_elem_of_further, list_elem_of_here.
    + vm_compute. intros Hin. apply elem_of_cons in Hin as [[=] | Hin].
      by apply elem_of_nil in Hin.
Defined.

(** ** The rows selected for a run *)

Lemma todo_spec (mf : list JP.Entry) i e :
  (i, e) ∈ JP.todo mf ↔
  mf !! i = Some e ∧ JP.status e ≠ "done" ∧ JP.status e ≠ "empty".
Proof.
  unfold JP.todo. rewrite list_elem_of_filter, elem_of_lookup_imap. simpl.
  rewrite isin_false, !not_elem_of_cons.
  split.
  - intros ((Hd & He & _) & j & x & [= -> ->] & Hl). done.
  - intros (Hl & Hd & He). split; [by pose proof (not_elem_of_nil (JP.status e))|].
    by exists i, e.
Qed.

(** C2, as stated, does not hold: a row whose status is [empty] is left out
    of the rows to process. *)
Lemma empty_row_is_not_selected :
  let e := JP.mkEntry (JP.mkTarget "1301" "Kyokuyo" "T") "empty" in
  JP.todo [e] = []
  ∧ ¬ (∀ (mf : list JP.Entry) i e,
         (i, e) ∈ JP.todo mf ↔
         mf !! i = Some e ∧ JP.status e ∈ ["pending"; "failed"; "empty"]).
Proof.
  intros e. split; [by vm_compute|].
  intros H. destruct (H [e] 0 e) as [_ Hsel].
  assert (Hin : (0, e) ∈ JP.todo [e]) by (apply Hsel; split; [done | in_list]).
  vm_compute in Hin. by apply elem_of_nil in Hin.
Qed.

(** C2, amended.  The rows selected for a run (line 151 of downloader_jp.py)
    are exactly the rows of the manifest whose status is neither [done] nor
    [empty]; among the rows whose status is in the status domain these are
    the [pending] and the [failed] ones.  Both [done] and [empty] are left
    out. *)
Theorem todo_is_pending_or_failed (mf : list JP.Entry) (i : nat) (e : JP.Entry) :
  ((i, e) ∈ JP.todo mf ↔
     mf !! i = Some e ∧ JP.status e ≠ "done" ∧ JP.status e ≠ "empty")
  ∧ ((i, e) ∈ JP.todo mf ∧ JP.status e ∈ status_domain ↔
     mf !! i = Some e ∧ JP.status e ∈ ["pending"; "failed"]).
Proof.
  split; [apply todo_spec|]. rewrite todo_spec. unfold status_domain.
  rewrite !elem_of_cons, !elem_of_nil.
  split.
  - intros [(Hl & Hd & He) Hdom]. split; [done|]. tauto.
  - intros [Hl [-> | [-> | []]]]; (split; [split; [done|split; discriminate]|tauto]).
Qed.

(** ** The manifest of a first run *)

(** C8, as stated, does not hold: on a first run a target whose artifact is
    already in the data directory starts as [done]. *)
Lemma first_run_existing_artifact_is_done :
  let t := JP.mkTarget "1301" "Kyokuyo" "T" in
  JP.build_manifest None ["1301.T.csv"] [t]
  = ([JP.mkEntry t "done"], Some [JP.mkEntry t "done"])
  ∧ ¬ (∀ listdir df_list e,
         e ∈ (JP.build_manifest None listdir df_list).1 →
         JP.status e = "pending").
Proof.
  intros t. assert (Hrun : JP.build_manifest None ["1301.T.csv"] [t]
                           = ([JP.mkEntry t "done"], Some [JP.mkEntry t "done"]))
    by (by vm_compute).
  split; [exact Hrun|].
  intros H. specialize (H ["1301.T.csv"] [t] (JP.mkEntry t "done")).
  rewrite Hrun in H. discriminate H. apply list_elem_of_here.
Qed.

(** C8, amended.  On a first run (no MANIFEST_CSV) the manifest has one row
    per row of the list, in order; a row starts as [done] when DATA_DIR holds
    a file ending in [.T.csv] whose name up to the first dot is the row's
    code, and as [pending] otherwise; no row starts in another status; and
    the manifest is written to MANIFEST_CSV. *)
Theorem first_run_manifest (listdir : list string) (df_list : list JP.Target) :
  JP.target <$> (JP.build_manifest None listdir df_list).1 = df_list
  ∧ Forall (λ e,
      let has_artifact :=
        ∃ f, f ∈ listdir ∧ Py.endswith f ".T.csv" = true
             ∧ Py.split_head "." f = JP.code (JP.target e) in
      (JP.status e = "done" ∧ has_artifact)
      ∨ (JP.status e = "pending" ∧ ¬ has_artifact))
     (JP.build_manifest None listdir df_list).1
  ∧ (∀ t rest,
       (JP.build_manifest None listdir (t :: rest)).2
       = Some (JP.build_manifest None listdir (t :: rest)).1).
Proof.
  split; [|split; [|done]].
  - destruct df_list as [|t l]; [done|]. cbn [JP.build_manifest fst].
    unfold JP.fresh_manifest. rewrite <- list_fmap_compose.
    apply list_fmap_id.
  - destruct df_list as [|t l]; [constructor|]. cbn [JP.build_manifest fst].
    unfold JP.fresh_manifest. apply Forall_fmap, Forall_forall.
    intros x _. simpl. rewrite <- existing_files_spec.
    case_bool_decide; [left | right]; done.
Qed.

(** ** Reasoning about downloads *)

Section effects.
Context {A : Type}.

Lemma returns_ret (P : A → Prop) a : P a → returns_in P (ret a).
Proof. intros HP s v s' [= <- _]. done. Qed.

Lemma returns_raise (P : A → Prop) e : returns_in P (raise e).
Proof. intros s v s' [=]. Qed.

Lemma total_ret (P : A → Prop) a : P a → total_in P (ret a).
Proof. intros HP s. by exists a, s. Qed.

Lemma returns_bind {B} (Q : B → Prop) (P : A → Prop) (m : M B) (k : B → M A) :
  returns_in Q m → (∀ b, Q b → returns_in P (k b)) → returns_in P (bind m k).
Proof.
  intros Hm Hk s v s'. unfold bind.
  destruct (m s) as [[b|e] s1] eqn:E; [|done].
  apply Hk. by eapply Hm.
Qed.

Lemma returns_try (P : A → Prop) (body : M A) (handler : exn → M A) :
  returns_in P body → (∀ e, returns_in P (handler e)) →
  returns_in P (try_except body handler).
Proof.
  intros Hb Hh s v s'. unfold try_except.
  destruct (body s) as [[a|e] s1] eqn:E.
  - intros [= <- <-]. by eapply Hb.
  - apply Hh.
Qed.

(** A [try] whose handler never raises never raises. *)
Lemma total_try (P : A → Prop) (body : M A) (handler : exn → M A) :
  returns_in P body → (∀ e, total_in P (handler e)) →
  total_in P (try_except body handler).
Proof.
  intros Hb Hh s. unfold try_except.
  destruct (body s) as [[a|e] s1] eqn:E.
  - exists a, s1. split; [done|]. by eapply Hb.
  - apply Hh.
Qed.

Lemma total_bind {B} (Q : B → Prop) (P : A → Prop) (m : M B) (k : B → M A) :
  total_in Q m → (∀ b, Q b → total_in P (k b)) → total_in P (bind m k).
Proof.
  intros Hm Hk s. unfold bind.
  destruct (Hm s) as (b & s1 & -> & Hb). by apply Hk.
Qed.

End effects.

Lemma returns_for_each {A R} (P : R → Prop) (xs : list A)
    (body : A → M (option R)) (after : M R) :
  (∀ x, returns_in (when_returned P) (body x)) → returns_in P after →
  returns_in P (for_each xs body after).
Proof.
  intros Hb Ha. induction xs as [|x xs IH]; [done|]. simpl.
  eapply returns_bind; [apply Hb|].
  intros [v|] Hv; [by apply returns_ret | done].
Qed.

Lemma total_for_each {A R} (P : R → Prop) (xs : list A)
    (body : A → M (option R)) (after : M R) :
  (∀ x, total_in (when_returned P) (body x)) → total_in P after →
  total_in P (for_each xs body after).
Proof.
  intros Hb Ha. induction xs as [|x xs IH]; [done|]. simpl.
  eapply total_bind; [apply Hb|].
  intros [v|] Hv; [by apply total_ret | done].
Qed.

Lemma returns_sleep lo hi : returns_in (λ _, True) (sleep lo hi).
Proof. done. Qed.

Lemma returns_fetch p symbol : returns_in (λ _, True) (fetch p symbol).
Proof. done. Qed.

Lemma returns_save p path df : returns_in (λ _, True) (save p path df).
Proof. done. Qed.

Lemma total_sleep lo hi : total_in (λ _, True) (sleep lo hi).
Proof. intros s. unfold sleep. eauto. Qed.

(** Steps of a returned-value argument through the constructs of a
    download. *)
Ltac returns_step :=
  first
    [ apply returns_ret
    | apply returns_raise
    | eapply returns_bind; [apply returns_sleep | intros ? _]
    | eapply returns_bind; [apply returns_fetch | intros ? _]
    | eapply returns_bind; [apply returns_save | intros ? _]
    | apply returns_try; [|intros ?]
    | match goal with
      | |- returns_in _ (if ?b then _ else _) => destruct b
      | |- returns_in _ (match ?e with Exception _ => _ end) => destruct e
      end ].

(** *** downloader_jp.download_one *)

Lemma jp_download_one_total p idx row :
  total_in (jp_outcome idx) (JP.download_one p idx row).
Proof.
  unfold JP.download_one. apply total_for_each.
  - intros attempt. apply total_try.
    + repeat returns_step; simpl; try done; (split; [done | in_list]).
    + intros e. destruct (attempt =? JP.max_retries - 1).
      * apply total_ret. split; [done | in_list].
      * eapply total_bind; [apply total_sleep|]. intros _ _. by apply total_ret.
  - apply total_ret. split; [done | in_list].
Qed.


(** *** downloader_us.download_stock_data *)

Lemma us_download_total safe_name fs p item :
  total_in (λ o : US.Outcome, o.1 ∈ us_statuses)
           (US.download_stock_data safe_name fs p item).
Proof.
  unfold US.download_stock_data. apply total_try.
  - destruct (Py.split1 "&" item) as [[yf_tkr name]|]; [|apply returns_raise].
    destruct (US.cache_hit fs _); [apply returns_ret; simpl; in_list|].
    eapply returns_bind; [apply returns_sleep|]. intros _ _.
    apply returns_for_each.
    + intros _.
      eapply (returns_bind (when_returned (λ o : US.Outcome, o.1 ∈ us_statuses))).
      * repeat returns_step; simpl; try done; in_list.
      * intros [v|] Hv; repeat returns_step; done.
    + apply returns_ret. simpl. in_list.
  - intros e. apply total_ret. simpl. in_list.
Qed.


(** *** downloader_cn.download_one *)

Lemma cn_download_total today fs p item :
  total_in (λ o : CN.Outcome, o.1 ∈ us_statuses)
           (CN.download_one today fs p item).
Proof.
  unfold CN.download_one. apply total_try.
  - destruct (Py.split1 "&" item) as [[code name]|]; [|apply returns_raise].
    destruct (CN.cache_hit today fs _); [apply returns_ret; simpl; in_list|].
    repeat returns_step; simpl; in_list.
  - intros e. apply total_ret. simpl. in_list.
Qed.

(** ** A fetch that always raises *)




(** ** The cache check *)

Lemma cn_cache_hit_spec today (fs : gmap string FileStat) path :
  CN.cache_hit today fs path = true ↔
  ∃ st, fs !! path = Some st ∧ st_mtime_date st = today ∧ 1000 < st_size st.
Proof.
  unfold CN.cache_hit. destruct (fs !! path) as [st|].
  - rewrite andb_true_iff, bool_decide_eq_true, Nat.ltb_lt.
    split; [intros [? ?]; eauto | intros (? & [= <-] & ? & ?); done].
  - split; [done | intros (? & [=] & _)].
Qed.

Lemma us_cache_hit_spec (fs : gmap string FileStat) path :
  US.cache_hit fs path = true ↔
  ∃ st, fs !! path = Some st ∧ 1000 < st_size st.
Proof.
  unfold US.cache_hit. destruct (fs !! path) as [st|].
  - rewrite Nat.ltb_lt.
    split; [intros ?; eauto | intros (? & [= <-] & ?); done].
  - split; [done | intros (? & [=] & _)].
Qed.

(** C4, as stated, does not hold for the US download: an artifact written on
    an earlier day passes its check, whatever the current date, and the
    fetch is skipped. *)
Lemma us_cache_ignores_date :
  US.cache_hit {[ "AAPL_Apple Inc.csv" := mkStat 19 2048 ]}
               "AAPL_Apple Inc.csv" = true
  ∧ US.download_stock_data id {[ "AAPL_Apple Inc.csv" := mkStat 19 2048 ]}
      timing_out "AAPL&Apple Inc" net0
    = (Ret ("exists", Some "AAPL"), net0)
  ∧ ¬ (∀ today (fs : gmap string FileStat) path,
         US.cache_hit fs path = true ↔
         ∃ st, fs !! path = Some st
               ∧ st_mtime_date st = today ∧ 1000 < st_size st).
Proof.
  split; [by vm_compute|]. split; [by vm_compute|].
  intros H.
  destruct (H 20 {[ "AAPL_Apple Inc.csv" := mkStat 19 2048 ]}
              "AAPL_Apple Inc.csv") as [Hdate _].
  destruct Hdate as (st & Hst & Hday & _); [by vm_compute|].
  vm_compute in Hst. injection Hst as <-. discriminate Hday.
Qed.

(** C4, amended.  The CN download treats an artifact as fresh exactly when
    the file exists, the date of its last modification is the current date
    and its size exceeds 1000 bytes.  The US download treats it as present
    exactly when the file exists and its size exceeds 1000 bytes; it does
    not look at the date.  When the check succeeds the download returns
    [exists] at once: no wait, no fetch, no write. *)
Theorem cache_check (today : nat) (fs : gmap string FileStat) (path : string) :
  (CN.cache_hit today fs path = true ↔
     ∃ st, fs !! path = Some st
           ∧ st_mtime_date st = today ∧ 1000 < st_size st)
  ∧ (US.cache_hit fs path = true ↔
     ∃ st, fs !! path = Some st ∧ 1000 < st_size st)
  ∧ (∀ p item code name s,
       Py.split1 "&" item = Some (code, name) →
       path = code +:+ "_" +:+ name +:+ ".csv" →
       CN.cache_hit today fs path = true →
       CN.download_one today fs p item s = (Ret ("exists", code), s))
  ∧ (∀ safe_name p item yf_tkr name s,
       Py.split1 "&" item = Some (yf_tkr, name) →
       path = yf_tkr +:+ "_" +:+ safe_name name +:+ ".csv" →
       US.cache_hit fs path = true →
       US.download_stock_data safe_name fs p item s
       = (Ret ("exists", Some yf_tkr), s)).
Proof.
  split; [apply cn_cache_hit_spec|]. split; [apply us_cache_hit_spec|].
  split.
  - intros p item code name s Hsplit -> Hhit.
    unfold CN.download_one, try_except. by rewrite Hsplit, Hhit.
  - intros safe_name p item yf_tkr name s Hsplit -> Hhit.
    unfold US.download_stock_data, try_except. by rewrite Hsplit, Hhit.
Qed.

Lemma cache_check_witness :
  CN.download_one 20 {[ "600519_Moutai.csv" := mkStat 20 4096 ]}
    timing_out "600519&Moutai" net0
  = (Ret ("exists", "600519"), net0)
  ∧ US.download_stock_data id {[ "AAPL_Apple Inc.csv" := mkStat 20 2048 ]}
      timing_out "AAPL&Apple Inc" net0
    = (Ret ("exists", Some "AAPL"), net0).
Proof.
  split.
  - destruct (cache_check 20 {[ "600519_Moutai.csv" := mkStat 20 4096 ]}
                "600519_Moutai.csv") as (_ & _ & Hcn & _).
    apply (Hcn timing_out "600519&Moutai" "600519" "Moutai" net0);
      [reflexivity | reflexivity | vm_compute; reflexivity].
  - destruct (cache_check 20 {[ "AAPL_Apple Inc.csv" := mkStat 20 2048 ]}
                "AAPL_Apple Inc.csv") as (_ & _ & _ & Hus).
    apply (Hus id timing_out "AAPL&Apple Inc" "AAPL" "Apple Inc" net0);
      [reflexivity | reflexivity | vm_compute; reflexivity].
Defined.

(** ** Undersized listings *)

(** C5.  When the listing obtained from the source has fewer entries than
    the market's threshold (3800 for JP, 3000 for US, counted after removing
    duplicates), the persisted list file is left as it was, so the
    undersized result is not persisted; and when a persisted list exists it
    is what is returned, not the undersized result. *)
Theorem undersized_listing_falls_back :
  (∀ res list_all_csv,
     length (JP.drop_duplicates res) < JP.threshold →
     (JP.get_tse_list (Ret res) list_all_csv).2 = list_all_csv
     ∧ ∀ cached, list_all_csv = Some cached →
         (JP.get_tse_list (Ret res) list_all_csv).1 = cached)
  ∧ (∀ today cache nasdaq other,
       length (elements (list_to_set (nasdaq ++ other) : gset string))
         < US.threshold →
       (US.get_full_stock_list today cache nasdaq other).2 = cache
       ∧ ∀ c, cache = Some c →
           (US.get_full_stock_list today cache nasdaq other).1
           = US.cache_data c).
Proof.
  split.
  - intros res list_all_csv Hlt. unfold JP.get_tse_list.
    apply Nat.ltb_lt in Hlt as ->.
    destruct list_all_csv as [cached|]; simpl; [|done].
    split; [done|]. by intros ? [= <-].
  - intros today cache nasdaq other Hlt. unfold US.get_full_stock_list.
    destruct (US.todays_cache today cache) as [data|] eqn:Htoday.
    + split; [done|]. intros c ->. simpl in *.
      destruct (_ && _); by simplify_eq.
    + apply Nat.leb_gt in Hlt as ->.
      destruct cache as [c|]; simpl; [|done].
      split; [done|]. by intros ? [= <-].
Qed.

Lemma undersized_listing_falls_back_witness :
  (JP.get_tse_list (Ret [JP.mkTarget "1301" "Kyokuyo" "T"])
     (Some [JP.mkTarget "1332" "Nissui" "T"])).1
  = [JP.mkTarget "1332" "Nissui" "T"]
  ∧ (US.get_full_stock_list 20 (Some (US.mkCache 19 ["MSFT&Microsoft"]))
       ["AAPL&Apple Inc"] []).1
    = ["MSFT&Microsoft"].
Proof.
  destruct undersized_listing_falls_back as [Hjp Hus].
  split.
  - apply (Hjp [JP.mkTarget "1301" "Kyokuyo" "T"]
               (Some [JP.mkTarget "1332" "Nissui" "T"]));
      [vm_compute; lia | reflexivity].
  - refine (proj2 (Hus 20 (Some (US.mkCache 19 ["MSFT&Microsoft"]))
                       ["AAPL&Apple Inc"] [] _) _ eq_refl).
    vm_compute. lia.
Defined.

(** ** Writing the manifest *)

Section manifest_file.
Implicit Types (mf : list JP.Entry) (file : option (list JP.Entry)).

Lemma append_rows acc mf :
  foldl JP.apply_op (Some acc) (JP.AppendRow <$> mf) = Some (acc ++ mf).
Proof.
  revert acc. induction mf as [|e mf IH]; intros acc; simpl.
  - by rewrite app_nil_r.
  - rewrite IH. by rewrite <- app_assoc.
Qed.

Lemma manifest_to_csv_complete mf file : JP.manifest_to_csv mf file = Some mf.
Proof. unfold JP.manifest_to_csv, JP.run_ops. simpl. apply append_rows. Qed.



End manifest_file.

(** ** The loop of main *)

Section main_loop.
Implicit Types (st : JP.Loop) (r : nat * string).

Lemma record_mf st r :
  JP.l_mf (JP.record st r) = alter (JP.set_status r.2) r.1 (JP.l_mf st).
Proof. unfold JP.record. by destruct (_ =? _). Qed.

Lemma record_count st r : JP.l_count (JP.record st r) = S (JP.l_count st).
Proof. unfold JP.record. by destruct (_ =? _). Qed.


Lemma alter_status_ok (mf : list JP.Entry) r :
  ledger_ok mf → r.2 ∈ status_domain →
  ledger_ok (alter (JP.set_status r.2) r.1 mf).
Proof. intros Hok Hr. apply Forall_alter; [done|]. by intros e _ _. Qed.

Lemma record_ok st r :
  loop_ok st → r.2 ∈ status_domain → loop_ok (JP.record st r).
Proof.
  intros (Hmf & Hcsv & Hps) Hr.
  pose proof (alter_status_ok _ _ Hmf Hr) as Hnew.
  unfold JP.record, loop_ok. destruct (_ =? _); simpl.
  - rewrite manifest_to_csv_complete. split; [done|].
    split; [by intros m [= <-]|]. apply Forall_app. split; [done|].
    by constructor.
  - done.
Qed.

Lemma consume_ok results i st :
  loop_ok st →
  Forall (λ x, ∀ r, x = Ret r → r.2 ∈ status_domain) results →
  loop_ok (JP.consume results i st).1.
Proof.
  intros Hst Hres. revert i st Hst.
  induction Hres as [|x results Hx _ IH]; intros i st Hst.
  - by destruct i as [[|i]|].
  - destruct i as [[|i]|]; simpl; [done| |];
      (destruct x as [r|e]; [apply IH, record_ok; auto | done]).
Qed.



Lemma finally_ok st : loop_ok st → loop_ok (JP.finally st).
Proof.
  intros (Hmf & Hcsv & Hps). unfold JP.finally, loop_ok. simpl.
  rewrite manifest_to_csv_complete. split; [done|].
  split; [by intros m [= <-]|]. apply Forall_app. split; [done|].
  by constructor.
Qed.

Lemma finally_persists st :
  JP.l_csv (JP.finally st) = Some (JP.l_mf st)
  ∧ JP.l_mf (JP.finally st) = JP.l_mf st
  ∧ last (JP.l_persists (JP.finally st)) = Some (JP.l_mf st).
Proof.
  unfold JP.finally. simpl.
  by rewrite manifest_to_csv_complete, last_snoc.
Qed.

(** What the workers hand to the loop. *)
Lemma completed_results (yf : nat → Provider) (td : list (nat * JP.Entry))
    (schedule : list nat) :
  Forall (λ x, ∃ r, x = Ret r ∧ r.2 ∈ ["done"; "empty"; "failed"])
    (omap (λ k, fst <$>
             ((λ item, JP.download_one (yf item.1) item.1 item.2 net0) <$> td)
             !! k) schedule).
Proof.
  apply Forall_forall. intros x Hx.
  apply list_elem_of_omap in Hx as (k & _ & Hk).
  apply fmap_Some in Hk as ([x' n] & Hk & ->).
  apply list_lookup_fmap_Some in Hk as ([idx row] & Hrun & _). simpl in *.
  destruct (jp_download_one_total (yf idx) idx row net0)
    as (r & s' & Hr & _ & Hst).
  rewrite Hr in Hrun. injection Hrun as -> _. by exists r.
Qed.

End main_loop.

Lemma three_in_domain s : s ∈ ["done"; "empty"; "failed"] → s ∈ status_domain.
Proof. unfold status_domain. rewrite !elem_of_cons. tauto. Qed.

Lemma drop_duplicates_nil (res : list JP.Target) :
  JP.drop_duplicates res = [] ↔ res = [].
Proof. split; [by destruct res | by intros ->]. Qed.

(** The three ways through [main]. *)
Lemma main_cases (env : JP.Env) (d : JP.Disk) :
  let listed := JP.get_tse_list (JP.listing env) (JP.list_all_csv d) in
  let built := JP.build_manifest (JP.manifest_csv d) (JP.listdir env) listed.1 in
  (listed.1 = []
   ∧ JP.main env d
     = JP.mkRun (Ret None) (JP.mkDisk listed.2 (JP.manifest_csv d)) None [] [] [])
  ∨ (listed.1 ≠ [] ∧ JP.todo built.1 = []
     ∧ JP.main env d
       = JP.mkRun (Ret (Some (JP.summarize built.1)))
                  (JP.mkDisk listed.2 built.2) (Some built.1) [] [] [])
  ∨ (listed.1 ≠ [] ∧ JP.todo built.1 ≠ []
     ∧ ∃ st sig,
         let futures :=
           (λ item, JP.download_one (JP.yf env item.1) item.1 item.2 net0)
             <$> JP.todo built.1 in
         JP.consume (omap (λ k, fst <$> futures !! k) (JP.schedule env))
                    (JP.interrupt env) (JP.mkLoop built.1 built.2 0 [])
         = (st, sig)
         ∧ JP.main env d
           = JP.mkRun (match sig with
                       | Some (JP.Propagated e) => Raise e
                       | _ => Ret (Some (JP.summarize (JP.l_mf (JP.finally st))))
                       end)
                      (JP.mkDisk listed.2 (JP.l_csv (JP.finally st)))
                      (Some (JP.l_mf (JP.finally st))) (JP.todo built.1)
                      (snd <$> futures) (JP.l_persists (JP.finally st))).
Proof.
  intros listed built. unfold JP.main. subst built listed.
  destruct (JP.get_tse_list _ _) as [[|t df_list] list_csv]; [by left|].
  right. cbn [fst snd].
  destruct (JP.build_manifest _ _ _) as [mf m_csv]. cbn [fst snd].
  destruct (JP.todo mf) as [|item td] eqn:Htd; [by left|].
  right. split; [done|]. split; [done|].
  destruct (JP.consume _ _ _) as [st sig] eqn:Hloop.
  exists st, sig. split; [done|]. reflexivity.
Qed.

(** ** When the run stops for want of a list *)

Lemma get_tse_list_empty listing (list_all_csv : option (list JP.Target)) :
  (JP.get_tse_list listing list_all_csv).1 = [] ↔
  listing_invalid listing
  ∧ (list_all_csv = Some []
     ∨ (list_all_csv = None ∧ listing_no_rows listing)).
Proof.
  unfold JP.get_tse_list. destruct listing as [res|e]; simpl.
  - destruct (length (JP.drop_duplicates res) <? JP.threshold) eqn:E.
    + apply Nat.ltb_lt in E.
      destruct list_all_csv as [cached|]; simpl.
      * split; [intros ->; auto | intros (_ & [[= ->] | [[=] _]]); done].
      * rewrite drop_duplicates_nil.
        split; [auto | intros (_ & [[=] | [_ ?]]); done].
    + apply Nat.ltb_ge in E. simpl. split.
      * intros Hnil. rewrite Hnil in E. simpl in E. unfold JP.threshold in E. lia.
      * intros [Hlt _]. lia.
  - destruct list_all_csv as [cached|]; simpl.
    + split; [intros ->; auto | intros (_ & [[= ->] | [[=] _]]); done].
    + split; [auto | done].
Qed.

Lemma main_stops_iff_no_list env d :
  JP.returned (JP.main env d) = Ret None ↔
  (JP.get_tse_list (JP.listing env) (JP.list_all_csv d)).1 = [].
Proof.
  destruct (main_cases env d)
    as [[Hnil ->] | [(Hne & _ & ->) | (Hne & _ & st & sig & _ & ->)]]; simpl.
  - done.
  - split; [done | by intros ?].
  - split; [|by intros ?]. by destruct sig as [[|e]|].
Qed.

(** C6, as stated, does not hold.  With a source that yields a single target
    (far below 3800) and no persisted list, the source and the fallback are
    exhausted, yet the run goes on with the undersized list: it builds the
    manifest and dispatches the download.  In the CN module the resolution
    ends in a built-in list when both interfaces raise. *)
Lemma undersized_list_without_cache_is_used :
  let t := JP.mkTarget "1301" "Kyokuyo" "T" in
  let env := JP.mkEnv (Ret [t]) [] (λ _, timing_out) [0] None in
  let d := JP.mkDisk None None in
  (listing_invalid (JP.listing env) ∧ JP.list_all_csv d = None)
  ∧ JP.returned (JP.main env d) = Ret (Some (mkStats 1 0 1))
  ∧ JP.submitted (JP.main env d) = [(0, JP.mkEntry t "pending")]
  ∧ JP.manifest_csv (JP.disk (JP.main env d)) = Some [JP.mkEntry t "failed"]
  ∧ ¬ (∀ env d,
         JP.returned (JP.main env d) = Ret None ↔
         listing_invalid (JP.listing env) ∧ JP.list_all_csv d = None)
  ∧ (CN.get_cn_list 20 None (Raise (Exception "spot_em"))
       (Raise (Exception "info_a"))).1
    = ["600519&貴州茅台"; "000001&平安銀行"].
Proof.
  intros t env d.
  assert (Hinv : listing_invalid (JP.listing env) ∧ JP.list_all_csv d = None).
  { split; [|done]. simpl. unfold JP.threshold. vm_compute. lia. }
  split; [exact Hinv|].
  split; [by vm_compute|]. split; [by vm_compute|]. split; [by vm_compute|].
  split; [|by vm_compute].
  intros H. apply (H env d) in Hinv. vm_compute in Hinv. discriminate Hinv.
Qed.

(** C6, amended.  The JP run stops for want of a list (main returns None; no
    error is raised) exactly when the resolved list is empty: the source
    raised or gave fewer than 3800 targets, and either the persisted list
    exists and is empty, or there is no persisted list and the source gave no
    row at all.  An undersized list with rows is used when no list is
    persisted.  When the run stops this way it has done no manifest work:
    MANIFEST_CSV is as it was, no manifest was built, nothing was submitted
    to the pool, nothing was fetched and nothing persisted.  The CN
    resolution returns its built-in two-entry list when both interfaces
    raise and no cache of the day exists. *)
Theorem run_stops_only_without_list (env : JP.Env) (d : JP.Disk) :
  (JP.returned (JP.main env d) = Ret None ↔
     listing_invalid (JP.listing env)
     ∧ (JP.list_all_csv d = Some []
        ∨ (JP.list_all_csv d = None ∧ listing_no_rows (JP.listing env))))
  ∧ (JP.returned (JP.main env d) = Ret None →
       JP.manifest_csv (JP.disk (JP.main env d)) = JP.manifest_csv d
       ∧ JP.ledger (JP.main env d) = None
       ∧ JP.submitted (JP.main env d) = []
       ∧ JP.nets (JP.main env d) = []
       ∧ JP.persists (JP.main env d) = [])
  ∧ (∀ today e1 e2,
       CN.get_cn_list today None (Raise e1) (Raise e2)
       = (["600519&貴州茅台"; "000001&平安銀行"], None)).
Proof.
  split; [by rewrite main_stops_iff_no_list, get_tse_list_empty|].
  split; [|done].
  rewrite main_stops_iff_no_list. intros Hnil.
  destruct (main_cases env d)
    as [[_ ->] | [(Hne & _) | (Hne & _)]]; done.
Qed.

Lemma run_stops_only_without_list_witness :
  let env := JP.mkEnv (Raise (Exception "No such file")) []
                      (λ _, timing_out) [] None in
  let d := JP.mkDisk None (Some [JP.mkEntry (JP.mkTarget "1301" "Kyokuyo" "T")
                                            "failed"]) in
  JP.manifest_csv (JP.disk (JP.main env d)) = JP.manifest_csv d
  ∧ JP.ledger (JP.main env d) = None
  ∧ JP.submitted (JP.main env d) = []
  ∧ JP.nets (JP.main env d) = []
  ∧ JP.persists (JP.main env d) = [].
Proof.
  intros env d.
  apply (proj1 (proj2 (run_stops_only_without_list env d))).
  reflexivity.
Defined.

(** ** Persisting the manifest *)




(** ** Failures stay with their target *)


(** ** The status domain is kept *)

(** C10.  The manifest of a first run holds only [pending] and [done];
    a merge adds only [pending] and keeps a manifest within the domain
    {pending, done, empty, failed}; a download returns only [done], [empty]
    or [failed]; recording such a result keeps the manifest within the
    domain.  Hence, when the manifest found on disk (if any) is within the
    domain, so are the manifest in memory at the end of the run, the file
    left behind and every manifest written on the way. *)
Theorem status_domain_preserved (env : JP.Env) (d : JP.Disk)
    (Hdisk : ∀ mf, JP.manifest_csv d = Some mf → ledger_ok mf) :
  (∀ listdir df_list,
     Forall (λ e, JP.status e ∈ ["pending"; "done"])
            (JP.build_manifest None listdir df_list).1)
  ∧ (∀ mf df_list, ledger_ok mf → ledger_ok (JP.merge mf df_list))
  ∧ (∀ p idx row s,
       ∃ status s', JP.download_one p idx row s = (Ret (idx, status), s')
                    ∧ status ∈ ["done"; "empty"; "failed"])
  ∧ (∀ st r, ledger_ok (JP.l_mf st) → r.2 ∈ status_domain →
       ledger_ok (JP.l_mf (JP.record st r)))
  ∧ (∀ mf, JP.ledger (JP.main env d) = Some mf → ledger_ok mf)
  ∧ (∀ mf, JP.manifest_csv (JP.disk (JP.main env d)) = Some mf → ledger_ok mf)
  ∧ Forall ledger_ok (JP.persists (JP.main env d)).
Proof.
  split.
  { intros listdir [|t l]; [constructor|]. cbn [JP.build_manifest fst].
    unfold JP.fresh_manifest. apply Forall_fmap, Forall_forall.
    intros x _. simpl. case_bool_decide; in_list. }
  split; [apply merge_ok|].
  split.
  { intros p idx row s.
    destruct (jp_download_one_total p idx row s)
      as ([i status] & s' & Hrun & Hi & Hst). simpl in *. subst i. eauto. }
  split.
  { intros st r Hok Hr. rewrite record_mf. by apply alter_status_ok. }
  pose proof (build_manifest_ok (JP.manifest_csv d) (JP.listdir env)
    (JP.get_tse_list (JP.listing env) (JP.list_all_csv d)).1 Hdisk)
    as [Hmf Hcsv].
  destruct (main_cases env d)
    as [[_ ->] | [(_ & _ & ->) | (_ & _ & st & sig & Hloop & ->)]]; simpl.
  - split; [done|]. split; [done | constructor].
  - split; [by intros mf [= <-]|]. split; [done | constructor].
  - assert (Hst : loop_ok (JP.finally st)).
    { apply finally_ok. change st with (st, sig).1. rewrite <- Hloop.
      apply consume_ok; [split; [done|split; [done|constructor]]|].
      eapply Forall_impl; [apply completed_results|].
      intros x (r & -> & Hr) r' [= <-]. by apply three_in_domain. }
    destruct Hst as (H1 & H2 & H3).
    split; [by intros mf [= <-]|]. done.
Qed.

Lemma status_domain_preserved_witness :
  let t := JP.mkTarget "1301" "Kyokuyo" "T" in
  let u := JP.mkTarget "1332" "Nissui" "T" in
  let env := JP.mkEnv (Ret [t; u]) [] (λ _, timing_out) [1; 0] None in
  let d := JP.mkDisk None (Some [JP.mkEntry t "empty"]) in
  Forall ledger_ok (JP.persists (JP.main env d)).
Proof.
  intros t u env d.
  refine (proj2 (proj2 (proj2 (proj2 (proj2 (proj2
            (status_domain_preserved env d _))))))).
  intros mf [= <-]. constructor; [in_list | constructor].
Defined.

(** * Further properties of the code *)

(** ** The resolved list of targets *)

Section tse_list.
Implicit Types (rows res : list JP.Target) (seen : list string).

Lemma drop_duplicates_from_sub seen rows t :
  t ∈ JP.drop_duplicates_from seen rows → t ∈ rows ∧ JP.code t ∉ seen.
Proof.
  revert seen. induction rows as [|r rows IH]; intros seen; simpl.
  - by intros ?%elem_of_nil.
  - destruct (Py.isin (JP.code r) seen) eqn:E.
    + intros [? ?]%IH. split; [by apply list_elem_of_further | done].
    + apply isin_false in E. intros [->|Hin]%elem_of_cons.
      * split; [apply list_elem_of_here | done].
      * apply IH in Hin as [? Hn]. split; [by apply list_elem_of_further|].
        intros ?. apply Hn. by apply list_elem_of_further.
Qed.

Lemma drop_duplicates_from_nodup seen rows :
  NoDup (JP.code <$> JP.drop_duplicates_from seen rows).
Proof.
  revert seen. induction rows as [|r rows IH]; intros seen; simpl.
  - constructor.
  - destruct (Py.isin (JP.code r) seen) eqn:E; [apply IH|].
    rewrite fmap_cons. constructor; [|apply IH].
    intros (t & Hc & Hin)%list_elem_of_fmap.
    apply drop_duplicates_from_sub in Hin as [_ Hn].
    apply Hn. rewrite Hc. apply list_elem_of_here.
Qed.

Lemma drop_duplicates_from_covers seen rows t :
  t ∈ rows →
  JP.code t ∈ seen ∨ JP.code t ∈ (JP.code <$> JP.drop_duplicates_from seen rows).
Proof.
  revert seen. induction rows as [|r rows IH]; intros seen; simpl.
  - by intros ?%elem_of_nil.
  - intros [->|Hin]%elem_of_cons.
    + destruct (Py.isin (JP.code r) seen) eqn:E.
      * left. by apply isin_true.
      * right. rewrite fmap_cons. apply list_elem_of_here.
    + destruct (Py.isin (JP.code r) seen) eqn:E; [by apply IH|].
      destruct (IH (JP.code r :: seen) Hin) as [[->|?]%elem_of_cons|?].
      * right. rewrite fmap_cons. apply list_elem_of_here.
      * by left.
      * right. rewrite fmap_cons. by apply list_elem_of_further.
Qed.

Lemma drop_duplicates_from_first seen r rows :
  JP.code r ∉ seen → r ∈ rows →
  ∃ t, t ∈ JP.drop_duplicates_from seen rows ∧ JP.code t = JP.code r.
Proof.
  intros Hn Hin.
  destruct (drop_duplicates_from_covers seen rows r Hin) as [?|Hc]; [done|].
  apply list_elem_of_fmap in Hc as (t & ? & ?). eauto.
Qed.

Lemma get_tse_list_cases listing (list_all_csv : option (list JP.Target)) :
  let r := JP.get_tse_list listing list_all_csv in
  (∃ cached, list_all_csv = Some cached ∧ r = (cached, list_all_csv))
  ∨ (∃ res, listing = Ret res ∧ list_all_csv = None
            ∧ r = (JP.drop_duplicates res, None))
  ∨ (listing_no_rows listing ∧ list_all_csv = None ∧ r = ([], None))
  ∨ (∃ res, listing = Ret res ∧ JP.threshold ≤ length (JP.drop_duplicates res)
            ∧ r = (JP.drop_duplicates res, Some (JP.drop_duplicates res))).
Proof.
  unfold JP.get_tse_list. destruct listing as [res|e]; simpl.
  - destruct (length (JP.drop_duplicates res) <? JP.threshold) eqn:E.
    + destruct list_all_csv as [cached|]; [left; eauto | right; left; eauto].
    + apply Nat.ltb_ge in E. right. right. right. eauto.
  - destruct list_all_csv as [cached|]; [left; eauto|].
    right. right. left. done.
Qed.

End tse_list.

(** X1.  Resolving the JP list never yields two rows with the same code, as
    long as the persisted list, if there is one, has none: the rows obtained
    from the exchange are reduced to the first row of each code (none of
    whose codes is lost), and the list left in LIST_ALL_CSV has distinct
    codes too. *)
Theorem tse_list_codes_distinct (listing : result (list JP.Target))
    (list_all_csv : option (list JP.Target))
    (Hcache : ∀ cached, list_all_csv = Some cached →
                NoDup (JP.code <$> cached)) :
  NoDup (JP.code <$> (JP.get_tse_list listing list_all_csv).1)
  ∧ (∀ cached', (JP.get_tse_list listing list_all_csv).2 = Some cached' →
       NoDup (JP.code <$> cached'))
  ∧ (∀ res, NoDup (JP.code <$> JP.drop_duplicates res)
            ∧ (∀ t, t ∈ JP.drop_duplicates res → t ∈ res)
            ∧ (∀ t, t ∈ res →
                 JP.code t ∈ (JP.code <$> JP.drop_duplicates res))).
Proof.
  split; [|split].
  - destruct (get_tse_list_cases listing list_all_csv)
      as [(c & Hc & ->) | [(res & _ & _ & ->) | [(_ & _ & ->)
         | (res & _ & _ & ->)]]]; simpl;
      [by apply Hcache | apply drop_duplicates_from_nodup | constructor
      | apply drop_duplicates_from_nodup].
  - destruct (get_tse_list_cases listing list_all_csv)
      as [(c & Hc & ->) | [(res & _ & _ & ->) | [(_ & _ & ->)
         | (res & _ & _ & ->)]]]; simpl; [done | done | done |].
    intros ? [= <-]. apply drop_duplicates_from_nodup.
  - intros res. split; [apply drop_duplicates_from_nodup|]. split.
    + intros t Hin. by apply drop_duplicates_from_sub in Hin as [? _].
    + intros t Hin.
      destruct (drop_duplicates_from_covers [] res t Hin) as [?%elem_of_nil|?];
        done.
Qed.

Lemma tse_list_codes_distinct_witness :
  let a := JP.mkTarget "1301" "Kyokuyo" "T" in
  let b := JP.mkTarget "1301" "Kyokuyo (dup)" "T" in
  let c := JP.mkTarget "1332" "Nissui" "T" in
  NoDup (JP.code <$> (JP.get_tse_list (Ret [a; b; c]) (Some [c])).1)
  ∧ NoDup (JP.code <$> (JP.get_tse_list (Ret [a; b; c]) None).1).
Proof.
  intros a b c. split.
  - refine (proj1 (tse_list_codes_distinct (Ret [a; b; c]) (Some [c]) _)).
    intros ? [= <-]. apply NoDup_singleton.
  - refine (proj1 (tse_list_codes_distinct (Ret [a; b; c]) None _)).
    intros ? [=].
Defined.

(** X2.  Once LIST_ALL_CSV holds a list of at least 3800 rows it always
    does: no resolution removes the file or writes a shorter list to it.
    And while it does, every resolution returns at least 3800 rows,
    whatever the exchange's file gives (nothing, too little, an error). *)
Theorem tse_list_cache_stays_full (listing : result (list JP.Target))
    (cached : list JP.Target)
    (Hfull : JP.threshold ≤ length cached) :
  (∃ cached', (JP.get_tse_list listing (Some cached)).2 = Some cached'
              ∧ JP.threshold ≤ length cached')
  ∧ JP.threshold ≤ length (JP.get_tse_list listing (Some cached)).1.
Proof.
  destruct (get_tse_list_cases listing (Some cached))
    as [(c & [= <-] & ->) | [(res & _ & [=] & _) | [(_ & [=] & _)
       | (res & _ & Hlen & ->)]]]; simpl; eauto.
Qed.

Lemma tse_list_cache_stays_full_witness :
  let cached := replicate 3800 (JP.mkTarget "1301" "Kyokuyo" "T") in
  JP.threshold
  ≤ length (JP.get_tse_list (Raise (Exception "No such file")) (Some cached)).1.
Proof.
  intros cached.
  refine (proj2 (tse_list_cache_stays_full _ cached _)).
  unfold cached. rewrite length_replicate. unfold JP.threshold. lia.
Defined.

(** ** A run of downloader_jp.main *)

Section jp_run.
Implicit Types (st : JP.Loop) (rs : list (nat * string)).

Lemma consume_interrupt_take results k st :
  (JP.consume results (Some k) st).1 = (JP.consume (take k results) None st).1.
Proof.
  revert k st. induction results as [|[r|e] rest IH]; intros [|k] st; simpl;
    auto.
Qed.

Lemma consume_rets rs st :
  JP.consume (Ret <$> rs) None st = (foldl JP.record st rs, None).
Proof. revert st. induction rs as [|r rs IH]; intros st; simpl; [done | apply IH]. Qed.

Lemma rets_exist {A} (P : A → Prop) (l : list (result A)) :
  Forall (λ x, ∃ r, x = Ret r ∧ P r) l → ∃ vs, l = Ret <$> vs ∧ Forall P vs.
Proof.
  induction 1 as [|x l (r & -> & Hr) _ (vs & -> & Hvs)].
  - by exists [].
  - exists (r :: vs). split; [done | by constructor].
Qed.

Lemma foldl_record_mf rs st :
  JP.l_mf (foldl JP.record st rs) = apply_results (JP.l_mf st) rs.
Proof.
  revert st. induction rs as [|r rs IH]; intros st; simpl; [done|].
  by rewrite IH, record_mf.
Qed.

Lemma foldl_record_count rs st :
  JP.l_count (foldl JP.record st rs) = JP.l_count st + length rs.
Proof.
  revert st. induction rs as [|r rs IH]; intros st; simpl; [lia|].
  rewrite IH, record_count. lia.
Qed.

Lemma apply_results_length mf rs : length (apply_results mf rs) = length mf.
Proof.
  revert mf. induction rs as [|r rs IH]; intros mf; simpl; [done|].
  unfold apply_results in *. simpl. by rewrite IH, length_alter.
Qed.

Lemma apply_results_targets mf rs :
  JP.target <$> apply_results mf rs = JP.target <$> mf.
Proof.
  revert mf. induction rs as [|r rs IH]; intros mf; [done|].
  unfold apply_results in *. simpl. rewrite IH.
  rewrite (list_fmap_alter JP.target _ id); [by rewrite list_alter_id|].
  by apply Forall_forall.
Qed.

(** A row that no result names is left as it was. *)
Lemma apply_results_other mf rs i :
  Forall (λ r, r.1 ≠ i) rs → apply_results mf rs !! i = mf !! i.
Proof.
  intros H. revert mf. induction H as [|r rs Hr _ IH]; intros mf; [done|].
  unfold apply_results in *. simpl. by rewrite IH, list_lookup_alter_ne.
Qed.

(** A row that some result names, or whose status was already in [S], has
    its status in [S] when all results carry statuses of [S]. *)
Lemma apply_results_status (S : list string) mf rs i e' :
  Forall (λ r, r.2 ∈ S) rs →
  (∀ e, mf !! i = Some e → JP.status e ∈ S) ∨ (∃ r, r ∈ rs ∧ r.1 = i) →
  apply_results mf rs !! i = Some e' → JP.status e' ∈ S.
Proof.
  intros H. revert mf. induction H as [|r rs Hr _ IH]; intros mf Hor Hl.
  - destruct Hor as [Hm | (r & []%elem_of_nil & _)]. by apply Hm.
  - unfold apply_results in *. simpl in Hl. eapply IH; [|exact Hl].
    destruct (decide (r.1 = i)) as [<-|Hne].
    + left. intros e. rewrite list_lookup_alter_eq.
      intros (e0 & _ & ->)%fmap_Some. done.
    + rewrite list_lookup_alter_ne by done.
      destruct Hor as [Hm | (r' & [->|Hin]%elem_of_cons & Hi)]; eauto.
      done.
Qed.

Lemma completed_is_tasks yf (td : list (nat * JP.Entry))
    (schedule : list nat) :
  omap (λ k, fst <$>
          ((λ item, JP.download_one (yf item.1) item.1 item.2 net0) <$> td)
          !! k) schedule
  = jp_task yf <$> omap (λ k, td !! k) schedule.
Proof.
  induction schedule as [|k schedule IH]; [done|]. simpl.
  rewrite list_lookup_fmap.
  destruct (td !! k) as [item|]; simpl; [f_equal|]; exact IH.
Qed.

Lemma jp_task_result yf item :
  ∃ status, jp_task yf item = Ret (item.1, status)
            ∧ status ∈ ["done"; "empty"; "failed"].
Proof.
  unfold jp_task.
  destruct (jp_download_one_total (yf item.1) item.1 item.2 net0)
    as ([i status] & s' & -> & Hi & Hst). simpl in *. subst i. eauto.
Qed.

(** The results that reach the loop: each names a row to process and
    carries [done], [empty] or [failed]. *)
Lemma completed_rows yf (td : list (nat * JP.Entry)) (schedule : list nat) :
  ∃ rs,
    jp_task yf <$> omap (λ k, td !! k) schedule = Ret <$> rs
    ∧ Forall (λ r, r.2 ∈ ["done"; "empty"; "failed"]
                   ∧ ∃ row, (r.1, row) ∈ td) rs
    ∧ ∀ j item, j ∈ schedule → td !! j = Some item →
        ∃ r, r ∈ rs ∧ r.1 = item.1.
Proof.
  induction schedule as [|k schedule (rs & Heq & Hall & Hcov)].
  - exists []. split; [done|]. split; [constructor|].
    by intros j item ?%elem_of_nil.
  - change (omap (λ k, td !! k) (k :: schedule))
      with (match td !! k with
            | Some item => item :: omap (λ k, td !! k) schedule
            | None => omap (λ k, td !! k) schedule
            end).
    destruct (td !! k) as [item|] eqn:Hk.
    + rewrite fmap_cons, Heq.
      destruct (jp_task_result yf item) as (status & -> & Hst).
      exists ((item.1, status) :: rs). split; [done|]. split.
      * constructor; [|done]. split; [done|]. exists item.2.
        apply list_elem_of_lookup_2 in Hk. by destruct item.
      * intros j it [->|Hj]%elem_of_cons Hit.
        -- rewrite Hk in Hit. injection Hit as <-.
           eexists. split; [apply list_elem_of_here | done].
        -- destruct (Hcov j it Hj Hit) as (r & ? & ?).
           exists r. split; [by apply list_elem_of_further | done].
    + exists rs. split; [done|]. split; [done|].
      intros j it [->|Hj]%elem_of_cons Hit; [congruence|]. eauto.
Qed.

(** The manifest at the end of a run is the manifest that was built with
    some of the results of the submitted tasks written into it. *)
Lemma main_ledger env d m :
  JP.ledger (JP.main env d) = Some m →
  let built :=
    (JP.build_manifest (JP.manifest_csv d) (JP.listdir env)
       (JP.get_tse_list (JP.listing env) (JP.list_all_csv d)).1) in
  ∃ rs, m = apply_results built.1 rs
        ∧ Forall (λ r, r.2 ∈ ["done"; "empty"; "failed"]
                       ∧ ∃ row, (r.1, row) ∈ JP.todo built.1) rs
        ∧ (JP.interrupt env = None →
           ∀ j item, j ∈ JP.schedule env → JP.todo built.1 !! j = Some item →
             ∃ r, r ∈ rs ∧ r.1 = item.1)
        ∧ (JP.manifest_csv (JP.disk (JP.main env d)) = built.2
           ∨ JP.manifest_csv (JP.disk (JP.main env d)) = Some m).
Proof.
  intros Hm built.
  destruct (main_cases env d)
    as [[_ Hrun] | [(_ & Htd & Hrun) | (_ & _ & st & sig & Hloop & Hrun)]];
    rewrite Hrun in Hm |- *; cbn [JP.ledger JP.disk JP.manifest_csv] in *.
  - done.
  - injection Hm as <-. exists []. fold built in Htd. rewrite Htd.
    split; [done|]. split; [constructor|].
    split; [by intros _ j item _ ?|by left].
  - injection Hm as <-. fold built in Hloop.
    rewrite completed_is_tasks in Hloop.
    destruct (completed_rows (JP.yf env) (JP.todo built.1) (JP.schedule env))
      as (rs & Heq & Hall & Hcov).
    rewrite Heq in Hloop.
    destruct (finally_persists st) as (Hcsv & _ & _). rewrite Hcsv.
    destruct (JP.interrupt env) as [k|] eqn:Hi.
    + exists (take k rs). split.
      * apply (f_equal fst) in Hloop. simpl in Hloop.
        rewrite consume_interrupt_take, <- fmap_take, consume_rets in Hloop.
        simpl in Hloop. by rewrite <- Hloop, foldl_record_mf.
      * split; [by apply Forall_take|]. split; [done | by right].
    + exists rs. rewrite consume_rets in Hloop. injection Hloop as <- _.
      rewrite foldl_record_mf. split; [done|]. split; [done|].
      split; [by intros _ | by right].
Qed.

End jp_run.

Section jp_run_facts.
Implicit Types (mf m : list JP.Entry) (df_list : list JP.Target).

Lemma manifest_codes_targets m :
  manifest_codes m = JP.code <$> (JP.target <$> m).
Proof. unfold manifest_codes. apply list_fmap_compose. Qed.

Lemma apply_results_codes m rs :
  manifest_codes (apply_results m rs) = manifest_codes m.
Proof. by rewrite !manifest_codes_targets, apply_results_targets. Qed.

Lemma merge_codes_distinct mf df_list :
  NoDup (manifest_codes mf) → NoDup (JP.code <$> df_list) →
  NoDup (manifest_codes (JP.merge mf df_list)).
Proof.
  intros Hmf Hl. unfold JP.merge, manifest_codes. rewrite fmap_app.
  apply NoDup_app. split; [done|]. split.
  - intros c Hc (e & -> & He)%list_elem_of_fmap.
    apply list_elem_of_fmap in He as (t & -> & Ht).
    apply list_elem_of_filter in Ht as [Hnew _]. by apply isin_false in Hnew.
  - rewrite <- list_fmap_compose.
    eapply sublist_NoDup; [exact Hl|].
    apply fmap_sublist, sublist_filter.
Qed.

Lemma fresh_manifest_codes listdir df_list :
  manifest_codes (JP.fresh_manifest listdir df_list) = JP.code <$> df_list.
Proof.
  unfold manifest_codes, JP.fresh_manifest. by rewrite <- list_fmap_compose.
Qed.

Lemma build_manifest_codes_distinct m_csv listdir df_list :
  (∀ mf, m_csv = Some mf → NoDup (manifest_codes mf)) →
  NoDup (JP.code <$> df_list) →
  NoDup (manifest_codes (JP.build_manifest m_csv listdir df_list).1)
  ∧ ∀ mf, (JP.build_manifest m_csv listdir df_list).2 = Some mf →
      NoDup (manifest_codes mf).
Proof.
  intros Hm Hl. unfold JP.build_manifest.
  destruct df_list as [|t l]; cbn [fst snd]; [split; [constructor | done]|].
  destruct m_csv as [mf|]; cbn [fst snd].
  - split; [apply merge_codes_distinct; eauto | done].
  - assert (NoDup (manifest_codes (JP.fresh_manifest listdir (t :: l))))
      as Hnd by (by rewrite fresh_manifest_codes).
    split; [exact Hnd|]. intros mf [= <-]. exact Hnd.
Qed.

Lemma build_manifest_nonempty m_csv listdir t rest :
  0 < length (JP.build_manifest m_csv listdir (t :: rest)).1.
Proof.
  cbn [JP.build_manifest]. destruct m_csv as [mf|]; cbn [fst].
  - pose proof (merge_covers mf (t :: rest) t (list_elem_of_here _ _)) as Hin.
    destruct (JP.merge mf (t :: rest)); [by apply elem_of_nil in Hin | simpl; lia].
  - simpl. lia.
Qed.

Lemma main_returned env d stats :
  JP.returned (JP.main env d) = Ret (Some stats) →
  ∃ m, JP.ledger (JP.main env d) = Some m ∧ stats = JP.summarize m
       ∧ 0 < length m.
Proof.
  destruct (main_cases env d)
    as [[_ ->] | [(Hne & _ & ->) | (Hne & _ & st & sig & Hloop & Hrun)]];
    cbn [JP.returned JP.ledger]; [done | |].
  - intros [= <-]. eexists. split; [done|]. split; [done|].
    destruct (JP.get_tse_list _ _).1; [done|]. apply build_manifest_nonempty.
  - assert (Hled : JP.ledger (JP.main env d) = Some (JP.l_mf (JP.finally st)))
      by (by rewrite Hrun).
    rewrite Hrun. cbn [JP.returned JP.ledger]. intros Hret.
    exists (JP.l_mf (JP.finally st)). split; [done|]. split.
    + destruct sig as [[|e]|]; congruence.
    + apply main_ledger in Hled as (rs & -> & _).
      rewrite apply_results_length.
      destruct (JP.get_tse_list _ _).1; [done|]. apply build_manifest_nonempty.
Qed.

Lemma todo_index mf i e : (i, e) ∈ JP.todo mf → mf !! i = Some e.
Proof. by intros (? & _)%todo_spec. Qed.

End jp_run_facts.

(** X3.  A run keeps one row per code: when the stored manifest and the
    stored list (if any) have pairwise distinct codes, so have the manifest
    at the end of the run and the manifest left on disk.  The run never
    adds, drops or reorders rows of the manifest it built; it only changes
    statuses. *)
Theorem run_keeps_codes_distinct (env : JP.Env) (d : JP.Disk)
    (Hm : ∀ mf, JP.manifest_csv d = Some mf → NoDup (manifest_codes mf))
    (Hl : ∀ l, JP.list_all_csv d = Some l → NoDup (JP.code <$> l)) :
  (∀ m, JP.ledger (JP.main env d) = Some m →
     NoDup (manifest_codes m)
     ∧ JP.target <$> m
       = JP.target <$>
           (JP.build_manifest (JP.manifest_csv d) (JP.listdir env)
              (JP.get_tse_list (JP.listing env) (JP.list_all_csv d)).1).1)
  ∧ (∀ m, JP.manifest_csv (JP.disk (JP.main env d)) = Some m →
       NoDup (manifest_codes m)).
Proof.
  pose proof (proj1 (tse_list_codes_distinct (JP.listing env)
                       (JP.list_all_csv d) Hl)) as Hlist.
  pose proof (build_manifest_codes_distinct (JP.manifest_csv d)
                (JP.listdir env) _ Hm Hlist) as [Hb1 Hb2].
  assert (Hled : ∀ m, JP.ledger (JP.main env d) = Some m →
                      NoDup (manifest_codes m)).
  { intros m (rs & -> & _)%main_ledger. by rewrite apply_results_codes. }
  split.
  - intros m Hm'. split; [by apply Hled|].
    apply main_ledger in Hm' as (rs & -> & _). apply apply_results_targets.
  - intros m Hcsv.
    destruct (JP.ledger (JP.main env d)) as [m'|] eqn:Hm'.
    + pose proof (Hled _ eq_refl) as Hnd.
      apply main_ledger in Hm' as (rs & -> & _ & _ & [Hd | Hd]);
        rewrite Hd in Hcsv; [by apply Hb2 | by injection Hcsv as <-].
    + destruct (main_cases env d)
        as [[_ Hrun] | [(_ & _ & Hrun) | (_ & _ & st & sig & _ & Hrun)]];
        rewrite Hrun in Hm', Hcsv; cbn in Hm', Hcsv; [by apply Hm | done..].
Qed.

Lemma run_keeps_codes_distinct_witness :
  let t := JP.mkTarget "1301" "Kyokuyo" "T" in
  let u := JP.mkTarget "1332" "Nissui" "T" in
  NoDup (manifest_codes [JP.mkEntry u "done"; JP.mkEntry t "failed"]).
Proof.
  intros t u.
  pose (env := JP.mkEnv (Ret [t; u; t]) [] (λ _, timing_out) [1; 0] None).
  pose (d := JP.mkDisk None (Some [JP.mkEntry u "done"])).
  refine (proj2 (run_keeps_codes_distinct env d _ _) _ _).
  - intros mf [= <-]. apply NoDup_singleton.
  - intros l [=].
  - vm_compute. reflexivity.
Defined.

(** X4.  The statistics that main returns are consistent and never computed
    over an empty manifest: total is the number of rows of the manifest and
    is at least 1 (so the completeness ratio of line 192 never divides by
    zero), success is the number of [done] rows, and
    total = success + fail. *)
Theorem run_stats_add_up (env : JP.Env) (d : JP.Disk) (stats : Stats)
    (Hret : JP.returned (JP.main env d) = Ret (Some stats)) :
  0 < total stats
  ∧ total stats = success stats + fail stats
  ∧ ∃ m, JP.ledger (JP.main env d) = Some m
         ∧ total stats = length m
         ∧ success stats = length (filter (λ e, JP.status e = "done") m).
Proof.
  apply main_returned in Hret as (m & Hm & -> & Hpos).
  unfold JP.summarize. cbn [total success fail].
  pose proof (length_filter (λ e, JP.status e = "done") m).
  split; [done|]. split; [lia|]. eauto.
Qed.

Lemma run_stats_add_up_witness :
  let t := JP.mkTarget "1301" "Kyokuyo" "T" in
  let env := JP.mkEnv (Ret [t]) ["1301.T.csv"] (λ _, timing_out) [] None in
  let d := JP.mkDisk None None in
  ∃ m, JP.ledger (JP.main env d) = Some m
       ∧ total (mkStats 1 1 0) = length m
       ∧ success (mkStats 1 1 0)
         = length (filter (λ e, JP.status e = "done") m).
Proof.
  intros t env d.
  apply (proj2 (proj2 (run_stats_add_up env d (mkStats 1 1 0) eq_refl))).
Defined.

(** X5.  A run leaves alone what is finished: a row that the stored manifest
    records as [done] or [empty] is never submitted to the pool and is, at
    the end of the run, the same row at the same place, whatever the
    downloads of the other rows return and whether or not the run is
    interrupted. *)
Theorem finished_rows_untouched (env : JP.Env) (d : JP.Disk)
    (mf m : list JP.Entry) (i : nat) (e : JP.Entry)
    (Hcsv : JP.manifest_csv d = Some mf)
    (Hrun : JP.ledger (JP.main env d) = Some m)
    (Hrow : mf !! i = Some e)
    (Hfin : JP.status e ∈ ["done"; "empty"]) :
  m !! i = Some e
  ∧ ∀ item, item ∈ JP.submitted (JP.main env d) → item.1 ≠ i.
Proof.
  assert (Hsub : JP.submitted (JP.main env d)
                 = JP.todo (JP.build_manifest (JP.manifest_csv d)
                     (JP.listdir env)
                     (JP.get_tse_list (JP.listing env) (JP.list_all_csv d)).1).1).
  { destruct (main_cases env d)
      as [[_ Hr] | [(_ & Htd & Hr) | (_ & _ & st & sig & _ & Hr)]];
      rewrite Hr in Hrun |- *; cbn in Hrun |- *; [done | by rewrite Htd | done]. }
  assert (Hlisted : (JP.get_tse_list (JP.listing env) (JP.list_all_csv d)).1 ≠ []).
  { destruct (main_cases env d) as [[_ Hr] | [(? & _) | (? & _)]]; [|done..].
    by rewrite Hr in Hrun. }
  rewrite Hsub. apply main_ledger in Hrun as (rs & -> & Hall & _).
  rewrite Hcsv in *.
  destruct (JP.get_tse_list _ _).1 as [|t rest]; [done|].
  cbn [JP.build_manifest fst] in *.
  pose proof (merge_lookup_old mf (t :: rest) i e Hrow) as Hbuilt.
  assert (Hno : ∀ row, (i, row) ∉ JP.todo (JP.merge mf (t :: rest))).
  { intros row (Hl & Hd & He)%todo_spec. rewrite Hbuilt in Hl.
    injection Hl as <-. revert Hfin. rewrite !elem_of_cons, elem_of_nil. tauto. }
  split.
  - rewrite apply_results_other; [done|].
    eapply Forall_impl; [exact Hall|]. intros r (_ & row & Hin) <-.
    by apply (Hno row).
  - intros [i' row] Hin <-. by apply (Hno row).
Qed.

Lemma finished_rows_untouched_witness :
  let t := JP.mkTarget "1301" "Kyokuyo" "T" in
  let u := JP.mkTarget "1332" "Nissui" "T" in
  let env := JP.mkEnv (Ret [t; u]) [] (λ _, timing_out) [0] None in
  let d := JP.mkDisk None (Some [JP.mkEntry t "empty"]) in
  [JP.mkEntry t "empty"; JP.mkEntry u "failed"] !! 0
  = Some (JP.mkEntry t "empty").
Proof.
  intros t u env d.
  refine (proj1 (finished_rows_untouched env d [JP.mkEntry t "empty"]
                   [JP.mkEntry t "empty"; JP.mkEntry u "failed"] 0
                   (JP.mkEntry t "empty") _ _ _ _)).
  - reflexivity.
  - vm_compute. reflexivity.
  - reflexivity.
  - apply list_elem_of_further, list_elem_of_here.
Defined.

(** X6.  A run that is not interrupted and whose loop receives the result of
    every submitted task leaves no row waiting: every row of the manifest
    ends as [done], [empty] or [failed], whatever statuses the stored
    manifest carried; so the next run will process exactly the [failed]
    rows. *)
Theorem complete_run_settles_every_row (env : JP.Env) (d : JP.Disk)
    (m : list JP.Entry)
    (Hint : JP.interrupt env = None)
    (Hall : ∀ j, j < length (JP.submitted (JP.main env d)) →
                 j ∈ JP.schedule env)
    (Hrun : JP.ledger (JP.main env d) = Some m) :
  Forall (λ e, JP.status e ∈ ["done"; "empty"; "failed"]) m
  ∧ ∀ i e, (i, e) ∈ JP.todo m → JP.status e = "failed".
Proof.
  assert (Hsub : JP.submitted (JP.main env d)
                 = JP.todo (JP.build_manifest (JP.manifest_csv d)
                     (JP.listdir env)
                     (JP.get_tse_list (JP.listing env) (JP.list_all_csv d)).1).1).
  { destruct (main_cases env d)
      as [[_ Hr] | [(_ & Htd & Hr) | (_ & _ & st & sig & _ & Hr)]];
      rewrite Hr in Hrun |- *; cbn in Hrun |- *; [done | by rewrite Htd | done]. }
  rewrite Hsub in Hall.
  apply main_ledger in Hrun as (rs & -> & Hrs & Hcov & _).
  specialize (Hcov Hint).
  set (built := (JP.build_manifest _ _ _).1) in *.
  assert (Hst : Forall (λ e, JP.status e ∈ ["done"; "empty"; "failed"])
                       (apply_results built rs)).
  { apply Forall_lookup. intros i e' Hi.
    assert (is_Some (built !! i)) as [e He].
    { apply lookup_lt_is_Some. rewrite <- (apply_results_length built rs).
      by eapply lookup_lt_Some. }
    eapply (apply_results_status _ built rs i); [|  |exact Hi].
    - eapply Forall_impl; [exact Hrs|]. by intros r [? _].
    - destruct (decide (JP.status e ∈ ["done"; "empty"])) as [Hfin|Hnot].
      + left. intros e0. rewrite He. intros [= <-].
        revert Hfin. rewrite !elem_of_cons, !elem_of_nil. tauto.
      + right.
        assert (Htd : (i, e) ∈ JP.todo built).
        { apply todo_spec. split; [done|].
          revert Hnot. rewrite !elem_of_cons, elem_of_nil. tauto. }
        apply list_elem_of_lookup in Htd as [j Hj].
        destruct (Hcov j (i, e)) as (r & Hr & Hri); [|done|by exists r].
        apply Hall. by eapply lookup_lt_Some. }
  split; [exact Hst|].
  intros i e (Hi & Hd & He)%todo_spec.
  apply list_elem_of_lookup_2 in Hi.
  rewrite Forall_forall in Hst. specialize (Hst e Hi).
  revert Hst. rewrite !elem_of_cons, elem_of_nil. tauto.
Qed.

Lemma complete_run_settles_every_row_witness :
  let t := JP.mkTarget "1301" "Kyokuyo" "T" in
  let u := JP.mkTarget "1332" "Nissui" "T" in
  let env := JP.mkEnv (Ret [t; u]) [] (λ _, timing_out) [1; 0] None in
  let d := JP.mkDisk None (Some [JP.mkEntry t "retry later"]) in
  Forall (λ e, JP.status e ∈ ["done"; "empty"; "failed"])
         [JP.mkEntry t "failed"; JP.mkEntry u "failed"].
Proof.
  intros t u env d.
  refine (proj1 (complete_run_settles_every_row env d
                   [JP.mkEntry t "failed"; JP.mkEntry u "failed"] _ _ _)).
  - reflexivity.
  - intros j Hj. vm_compute in Hj.
    destruct j as [|[|j]]; [| |lia].
    + apply list_elem_of_further, list_elem_of_here.
    + apply list_elem_of_here.
  - vm_compute. reflexivity.
Defined.

Section persist_count.
Implicit Types (st : JP.Loop) (rs : list (nat * string)).

Lemma div_100_succ n :
  S n / 100 = n / 100 + (if S n mod 100 =? 0 then 1 else 0).
Proof.
  pose proof (Nat.div_mod_eq n 100) as Hn.
  pose proof (Nat.div_mod_eq (S n) 100) as Hs.
  pose proof (Nat.mod_upper_bound n 100) as Hb.
  pose proof (Nat.mod_upper_bound (S n) 100) as Hbs.
  destruct (Nat.eqb_spec (S n mod 100) 0); lia.
Qed.

Lemma record_persists st r :
  length (JP.l_persists (JP.record st r)) + JP.l_count st / 100
  = length (JP.l_persists st) + S (JP.l_count st) / 100.
Proof.
  rewrite div_100_succ. unfold JP.record.
  destruct (S (JP.l_count st) mod 100 =? 0); cbn [JP.l_persists].
  - rewrite length_app. simpl. lia.
  - lia.
Qed.

Lemma foldl_record_persists rs st :
  length (JP.l_persists (foldl JP.record st rs)) + JP.l_count st / 100
  = length (JP.l_persists st) + (JP.l_count st + length rs) / 100.
Proof.
  revert st. induction rs as [|r rs IH]; intros st.
  - simpl. by rewrite Nat.add_0_r.
  - cbn [foldl length]. pose proof (IH (JP.record st r)) as H.
    rewrite record_count in H. pose proof (record_persists st r).
    replace (JP.l_count st + S (length rs)) with (S (JP.l_count st) + length rs)
      by lia. lia.
Qed.

Lemma omap_lookup_length {A} (l : list A) (ks : list nat) :
  Forall (λ k, k < length l) ks → length (omap (λ k, l !! k) ks) = length ks.
Proof.
  induction 1 as [|k ks Hk _ IH]; [done|].
  apply lookup_lt_is_Some in Hk as [x Hx].
  change (omap (λ k, l !! k) (k :: ks))
    with (match l !! k with
          | Some x => x :: omap (λ k, l !! k) ks
          | None => omap (λ k, l !! k) ks
          end).
  rewrite Hx. simpl. by rewrite IH.
Qed.

End persist_count.

(** X7.  The loop of main writes the manifest once for every full hundred
    of recorded results and once more at its end: when the pool hands over
    the results in an order that names only submitted tasks, a run that
    submitted work writes the manifest (n div 100) + 1 times, where n is the
    number of results recorded, that is all of them, or the first k when the
    user interrupts after k results. *)
Theorem manifest_written_every_hundred (env : JP.Env) (d : JP.Disk)
    (Hwork : JP.submitted (JP.main env d) ≠ [])
    (Hsched : Forall (λ k, k < length (JP.submitted (JP.main env d)))
                     (JP.schedule env)) :
  let recorded :=
    match JP.interrupt env with
    | Some k => k `min` length (JP.schedule env)
    | None => length (JP.schedule env)
    end in
  length (JP.persists (JP.main env d)) = recorded / 100 + 1.
Proof.
  intros recorded.
  destruct (main_cases env d)
    as [[_ Hr] | [(_ & _ & Hr) | (_ & _ & st & sig & Hloop & Hr)]];
    rewrite Hr in Hwork, Hsched |- *;
    cbn [JP.submitted JP.persists] in Hwork, Hsched |- *; [done..|].
  set (td := JP.todo _) in *.
  rewrite completed_is_tasks in Hloop.
  destruct (completed_rows (JP.yf env) td (JP.schedule env))
    as (rs & Heq & _ & _).
  assert (Hlen : length rs = length (JP.schedule env)).
  { rewrite <- (omap_lookup_length td (JP.schedule env) Hsched).
    apply (f_equal length) in Heq. by rewrite !length_fmap in Heq. }
  rewrite Heq in Hloop. unfold JP.finally. cbn [JP.l_persists].
  rewrite length_app. simpl.
  assert (Hst : ∃ rs', st = foldl JP.record (JP.mkLoop
            (JP.build_manifest (JP.manifest_csv d) (JP.listdir env)
               (JP.get_tse_list (JP.listing env) (JP.list_all_csv d)).1).1
            (JP.build_manifest (JP.manifest_csv d) (JP.listdir env)
               (JP.get_tse_list (JP.listing env) (JP.list_all_csv d)).1).2
            0 []) rs' ∧ length rs' = recorded).
  { unfold recorded. destruct (JP.interrupt env) as [k|].
    - exists (take k rs). split.
      + apply (f_equal fst) in Hloop. simpl in Hloop.
        by rewrite consume_interrupt_take, <- fmap_take, consume_rets in Hloop.
      + rewrite length_take. lia.
    - exists rs. rewrite consume_rets in Hloop. by injection Hloop as <- _. }
  destruct Hst as (rs' & -> & <-).
  pose proof (foldl_record_persists rs' (JP.mkLoop
            (JP.build_manifest (JP.manifest_csv d) (JP.listdir env)
               (JP.get_tse_list (JP.listing env) (JP.list_all_csv d)).1).1
            (JP.build_manifest (JP.manifest_csv d) (JP.listdir env)
               (JP.get_tse_list (JP.listing env) (JP.list_all_csv d)).1).2
            0 [])) as H.
  cbn [JP.l_count JP.l_persists length] in H.
  rewrite Nat.Div0.div_0_l in H. simpl in H. lia.
Qed.

Lemma manifest_written_every_hundred_witness :
  let t := JP.mkTarget "1301" "Kyokuyo" "T" in
  let u := JP.mkTarget "1332" "Nissui" "T" in
  let env := JP.mkEnv (Ret [t; u]) [] (λ _, timing_out) [1; 0] (Some 1) in
  let d := JP.mkDisk None None in
  length (JP.persists (JP.main env d)) = (1 `min` 2) / 100 + 1.
Proof.
  intros t u env d.
  apply (manifest_written_every_hundred env d).
  - vm_compute. discriminate.
  - vm_compute. repeat constructor.
Defined.

(** ** The downloads, attempt by attempt *)

(** Runs a download symbolically, splitting on what the provider does. *)
Ltac run_download :=
  unfold bind, try_except, sleep, fetch, save, ret, raise; cbn;
  repeat match goal with
    | H : history ?p ?sym ?n = _ |- context [history ?p ?sym ?n] =>
        rewrite H; cbn
    | H : has_rows ?df = _ |- context [has_rows ?df] => rewrite H; cbn
    | H : to_csv ?p ?path ?df = _ |- context [to_csv ?p ?path ?df] =>
        rewrite H; cbn
    | H : Py.contains ?a ?b = _ |- context [Py.contains ?a ?b] =>
        rewrite H; cbn
    | |- context [history ?p ?sym ?n] =>
        destruct (history p sym n) as [?|[?]] eqn:?; cbn
    | |- context [has_rows ?df] => destruct (has_rows df) eqn:?; cbn
    | |- context [to_csv ?p ?path ?df] =>
        destruct (to_csv p path df) eqn:?; cbn
    | |- context [Py.contains ?a ?b] => destruct (Py.contains a b) eqn:?; cbn
    | e : exn |- _ => destruct e; cbn
    end.

Lemma jp_download_spec p idx row s :
  let a1 := attempt p (jp_symbol row) (jp_path row) (calls s) in
  let a2 := attempt p (jp_symbol row) (jp_path row) (S (calls s)) in
  let a3 := attempt p (jp_symbol row) (jp_path row) (S (S (calls s))) in
  (JP.download_one p idx row s).1
  = Ret (idx, match a1, a2, a3 with
              | Saved _, _, _ | _, Saved _, _ | _, _, Saved _ => "done"
              | _, _, NoRows => "empty"
              | _, _, Failed => "failed"
              end)
  ∧ calls (JP.download_one p idx row s).2
    = calls s + match a1, a2 with
                | Saved _, _ => 1
                | _, Saved _ => 2
                | _, _ => 3
                end
  ∧ written (JP.download_one p idx row s).2
    = written s ++ match a1, a2, a3 with
                   | Saved df, _, _ | _, Saved df, _ | _, _, Saved df =>
                       [(jp_path row, df)]
                   | _, _, _ => []
                   end.
Proof.
  unfold attempt, jp_symbol, jp_path, JP.download_one, JP.max_retries.
  cbn [seq for_each].
  run_download; rewrite ?app_nil_r; (split; [done|]); (split; [lia | done]).
Qed.

Lemma attempt_saved_has_rows p symbol out_path n df :
  attempt p symbol out_path n = Saved df →
  has_rows df = true ∧ history p symbol n = Ret df
  ∧ to_csv p out_path df = None.
Proof.
  unfold attempt. destruct (history p symbol n) as [df'|e]; [|done].
  destruct (has_rows df') eqn:Hr; [|done].
  destruct (to_csv p out_path df') eqn:Hw; [done|]. by intros [= <-].
Qed.


Lemma split1_head sep item a b :
  Py.split1 sep item = Some (a, b) → Py.split_head sep item = a.
Proof.
  revert a b. induction item as [|c item IH]; intros a b; simpl; [done|].
  destruct (Ascii.eqb c sep); [by intros [= <- _]|].
  destruct (Py.split1 sep item) as [[a' b']|]; [|done].
  intros [= <- <-]. by rewrite (IH a' b').
Qed.

Lemma cn_download_spec today fs p item code name s :
  Py.split1 "&" item = Some (code, name) →
  let symbol :=
    if Py.startswith code "6" then code +:+ ".SS" else code +:+ ".SZ" in
  let out_path := code +:+ "_" +:+ name +:+ ".csv" in
  CN.cache_hit today fs out_path = false →
  let a := attempt p symbol out_path (calls s) in
  let r := CN.download_one today fs p item s in
  r.1 = Ret (match a with
             | Saved _ => "success"
             | NoRows => "empty"
             | Failed => "error"
             end, code)
  ∧ calls r.2 = S (calls s)
  ∧ sleeps r.2 = sleeps s ++ [(5, 12)]
  ∧ written r.2
    = written s ++ match a with Saved df => [(out_path, df)] | _ => [] end.
Proof.
  intros Hsplit symbol out_path Hmiss. subst symbol out_path.
  unfold attempt, CN.download_one.
  rewrite Hsplit, Hmiss, (split1_head _ _ _ _ Hsplit).
  destruct (Py.startswith code "6");
    run_download; rewrite ?app_nil_r; (split; [done|]); (split; done).
Qed.

(** X8.  The status of a JP download is [done] as soon as one of its (at
    most three) attempts fetches rows and writes them; otherwise it is what
    the third attempt gave: [empty] when the fetch came back without rows,
    [failed] when the fetch or the write raised.  What went wrong in the
    first two attempts leaves no trace in the status. *)
Theorem jp_status_follows_last_attempt (p : Provider) (idx : nat)
    (row : JP.Entry) (s : Net) :
  let a1 := attempt p (jp_symbol row) (jp_path row) (calls s) in
  let a2 := attempt p (jp_symbol row) (jp_path row) (S (calls s)) in
  let a3 := attempt p (jp_symbol row) (jp_path row) (S (S (calls s))) in
  (JP.download_one p idx row s).1
  = Ret (idx, match a1, a2, a3 with
              | Saved _, _, _ | _, Saved _, _ | _, _, Saved _ => "done"
              | _, _, NoRows => "empty"
              | _, _, Failed => "failed"
              end).
Proof. apply jp_download_spec. Qed.

(** X9.  A JP download invokes the fetch at least once and at most
    [max_retries] times.  It writes an artifact exactly when it returns
    [done]: then it stops at the attempt that succeeded and the one file
    written, at the row's path, holds the frame of that last fetch, which
    has rows; with any other status it has used all its attempts and has
    written nothing. *)
Theorem jp_artifact_only_when_done (p : Provider) (idx : nat)
    (row : JP.Entry) (s : Net) :
  let r := JP.download_one p idx row s in
  (calls s < calls r.2 ∧ calls r.2 ≤ calls s + JP.max_retries)
  ∧ (r.1 = Ret (idx, "done") →
       ∃ df, has_rows df = true
             ∧ history p (jp_symbol row) (calls r.2 - 1) = Ret df
             ∧ written r.2 = written s ++ [(jp_path row, df)])
  ∧ (r.1 ≠ Ret (idx, "done") →
       written r.2 = written s ∧ calls r.2 = calls s + JP.max_retries).
Proof.
  intros r. subst r.
  destruct (jp_download_spec p idx row s) as (-> & -> & ->).
  unfold JP.max_retries.
  destruct (attempt p (jp_symbol row) (jp_path row) (calls s))
    as [df1| |] eqn:H1;
    destruct (attempt p (jp_symbol row) (jp_path row) (S (calls s)))
      as [df2| |] eqn:H2;
    destruct (attempt p (jp_symbol row) (jp_path row) (S (S (calls s))))
      as [df3| |] eqn:H3;
    (split; [lia|]); (split; [intros Hd | intros Hd]);
    try done; rewrite ?app_nil_r; try (split; [done | lia]);
    try (apply attempt_saved_has_rows in H1 as (? & ? & ?);
         exists df1; replace (calls s + 1 - 1) with (calls s) by lia; done);
    try (apply attempt_saved_has_rows in H2 as (? & ? & ?);
         exists df2; replace (calls s + 2 - 1) with (S (calls s)) by lia; done);
    try (apply attempt_saved_has_rows in H3 as (? & ? & ?);
         exists df3; replace (calls s + 3 - 1) with (S (S (calls s))) by lia;
         done).
Qed.

Lemma jp_artifact_only_when_done_witness :
  let row := JP.mkEntry (JP.mkTarget "1301" "Kyokuyo" "T") "pending" in
  let r := JP.download_one timing_out 0 row net0 in
  written r.2 = written net0 ∧ calls r.2 = calls net0 + JP.max_retries.
Proof.
  intros row r.
  apply (proj2 (proj2 (jp_artifact_only_when_done timing_out 0 row net0))).
  vm_compute. discriminate.
Defined.





(** X12.  The CN download of an item code&name whose artifact is not fresh
    makes exactly one fetch, after one wait of 0.5-1.2 s, on code.SS when
    the code starts with 6 and on code.SZ otherwise: it returns [success]
    when the fetch gave rows that were written, [empty] when it gave none
    and [error] when the fetch or the write raised, and writes nothing but
    the saved frame.  Whatever happens, also for an item without "&", the
    code it reports is the text of the item before its first "&". *)
Theorem cn_download_outcome (today : nat) (fs : gmap string FileStat)
    (p : Provider) (item : string) (s : Net) :
  (∃ status s', CN.download_one today fs p item s
                = (Ret (status, Py.split_head "&" item), s'))
  ∧ (∀ code name,
       Py.split1 "&" item = Some (code, name) →
       let symbol :=
         if Py.startswith code "6" then code +:+ ".SS" else code +:+ ".SZ" in
       let out_path := code +:+ "_" +:+ name +:+ ".csv" in
       CN.cache_hit today fs out_path = false →
       let a := attempt p symbol out_path (calls s) in
       let r := CN.download_one today fs p item s in
       r.1 = Ret (match a with
                  | Saved _ => "success"
                  | NoRows => "empty"
                  | Failed => "error"
                  end, code)
       ∧ calls r.2 = S (calls s)
       ∧ sleeps r.2 = sleeps s ++ [(5, 12)]
       ∧ written r.2
         = written s ++ match a with
                        | Saved df => [(out_path, df)]
                        | _ => []
                        end).
Proof.
  split.
  - destruct (Py.split1 "&" item) as [[code name]|] eqn:Hsplit.
    + destruct (CN.cache_hit today fs (code +:+ "_" +:+ name +:+ ".csv"))
        eqn:Hhit.
      * exists "exists", s. unfold CN.download_one, try_except.
        by rewrite Hsplit, Hhit, (split1_head _ _ _ _ Hsplit).
      * destruct (cn_download_spec today fs p item code name s Hsplit Hhit)
          as (H1 & _).
        destruct (CN.download_one today fs p item s) as [r s'].
        simpl in H1. subst r. rewrite (split1_head _ _ _ _ Hsplit). eauto.
    + exists "error", s. unfold CN.download_one, try_except, raise.
      by rewrite Hsplit.
  - intros code name Hsplit symbol out_path Hmiss.
    apply (cn_download_spec today fs p item code name s Hsplit Hmiss).
Qed.

Lemma cn_download_outcome_witness :
  calls (CN.download_one 20 ∅ timing_out "600519&Moutai" net0).2 = 1.
Proof.
  apply (proj2 (cn_download_outcome 20 ∅ timing_out "600519&Moutai" net0)
           "600519" "Moutai"); reflexivity.
Defined.

(** ** Names of items and artifacts *)

Section py_strings.
Implicit Types (a b x s suf : string) (sep c : ascii).

Lemma append_cons c a b : String c a +:+ b = String c (a +:+ b).
Proof. reflexivity. Qed.

Lemma append_nil b : "" +:+ b = b.
Proof. reflexivity. Qed.

Lemma length_append_s a b :
  String.length (a +:+ b) = String.length a + String.length b.
Proof. induction a as [|c a IH]; rewrite ?append_cons, ?append_nil; simpl; [done | by f_equal]. Qed.

Lemma append_assoc_s a b x : (a +:+ b) +:+ x = a +:+ (b +:+ x).
Proof. induction a as [|c a IH]; rewrite ?append_cons, ?append_nil; simpl; [done | by f_equal]. Qed.

Lemma substring_skip a b n :
  String.substring (String.length a) n (a +:+ b) = String.substring 0 n b.
Proof. induction a as [|c a IH]; rewrite ?append_cons, ?append_nil; simpl; [done | exact IH]. Qed.

Lemma substring_all b : String.substring 0 (String.length b) b = b.
Proof. induction b as [|c b IH]; simpl; [done | by rewrite IH]. Qed.

Lemma substring_prefix a b : String.substring 0 (String.length a) (a +:+ b) = a.
Proof.
  induction a as [|c a IH]; rewrite ?append_cons, ?append_nil; simpl; [by destruct b | by rewrite IH].
Qed.

Lemma endswith_append a suf : Py.endswith (a +:+ suf) suf = true.
Proof.
  unfold Py.endswith. rewrite length_append_s.
  replace (String.length a + String.length suf - String.length suf)
    with (String.length a) by lia.
  rewrite substring_skip, substring_all, String.eqb_refl.
  apply andb_true_iff. split; [apply Nat.leb_le; lia | done].
Qed.

Lemma split_head_append sep a b :
  Py.char_in sep a = false → Py.split_head sep (a +:+ String sep b) = a.
Proof.
  induction a as [|c a IH]; rewrite ?append_cons, ?append_nil; simpl.
  - by rewrite Ascii.eqb_refl.
  - intros [Hc Ha]%orb_false_iff. by rewrite Hc, IH.
Qed.

Lemma split1_append sep a b :
  Py.char_in sep a = false → Py.split1 sep (a +:+ String sep b) = Some (a, b).
Proof.
  induction a as [|c a IH]; rewrite ?append_cons, ?append_nil; simpl.
  - by rewrite Ascii.eqb_refl.
  - intros [Hc Ha]%orb_false_iff. by rewrite Hc, IH.
Qed.


Lemma split1_none sep s : Py.char_in sep s = false → Py.split1 sep s = None.
Proof.
  induction s as [|c s IH]; simpl; [done|].
  intros [Hc Hs]%orb_false_iff. by rewrite Hc, IH.
Qed.

Lemma char_in_append sep a b :
  Py.char_in sep (a +:+ b) = Py.char_in sep a || Py.char_in sep b.
Proof.
  induction a as [|c a IH]; rewrite ?append_cons, ?append_nil; simpl; [done|]. by rewrite IH, orb_assoc.
Qed.

Lemma rfind_append_csv x : Py.rfind "." (x +:+ ".csv") = Some (String.length x).
Proof. induction x as [|c x IH]; rewrite ?append_cons, ?append_nil; simpl; [done | by rewrite IH]. Qed.

Lemma stem_csv x : x ≠ "" → Py.stem (x +:+ ".csv") = x.
Proof.
  intros Hx. unfold Py.stem. rewrite rfind_append_csv, length_append_s.
  assert (0 < String.length x) by (destruct x; [done | simpl; lia]).
  replace (0 <? String.length x) with true by (symmetry; apply Nat.ltb_lt; lia).
  replace (String.length x <? String.length x + String.length ".csv" - 1)
    with true by (symmetry; apply Nat.ltb_lt; simpl; lia).
  simpl. apply substring_prefix.
Qed.

Lemma concat_zeros_succ k :
  String.concat "" (replicate (S k) "0")
  = String "0" (String.concat "" (replicate k "0")).
Proof. by destruct k. Qed.

Lemma concat_zeros_length k :
  String.length (String.concat "" (replicate k "0")) = k.
Proof.
  induction k as [|k IH]; [done|].
  rewrite concat_zeros_succ. simpl. by rewrite IH.
Qed.

Lemma zfill_long w s : w ≤ String.length s → Py.zfill w s = s.
Proof.
  intros H. unfold Py.zfill.
  by replace (w - String.length s) with 0 by lia.
Qed.

Lemma zfill_length w s :
  String.length (Py.zfill w s) = w `max` String.length s.
Proof.
  unfold Py.zfill. rewrite length_append_s, concat_zeros_length. lia.
Qed.

End py_strings.

Section listings.

Lemma classify_common upper name is_etf :
  US.classify_security upper name is_etf = "Common Stock" ↔
  is_etf = false
  ∧ Forall (λ kw, Py.contains kw (upper name) = false) US.exclude_keywords.
Proof.
  unfold US.classify_security. destruct is_etf; [by split; [|intros [? _]]|].
  destruct (existsb _ _) eqn:E.
  - split; [done|]. intros [_ Hall].
    apply existsb_exists in E as (kw & Hin & Hkw).
    rewrite Forall_forall in Hall.
    rewrite (Hall kw) in Hkw; [done | by apply list_elem_of_In].
  - split; [|done]. intros _. split; [done|]. apply Forall_forall.
    intros kw Hin. destruct (Py.contains kw (upper name)) eqn:Hkw; [|done].
    assert (existsb (λ kw, Py.contains kw (upper name)) US.exclude_keywords
            = true) as Hex; [|by rewrite Hex in E].
    apply existsb_exists. exists kw. split; [by apply list_elem_of_In | done].
Qed.




End listings.





Section artifact_names.

Lemma char_in_zeros c k :
  c ≠ "0"%char → Py.char_in c (String.concat "" (replicate k "0")) = false.
Proof.
  intros Hc. induction k as [|k IH]; [done|].
  rewrite concat_zeros_succ. cbn [Py.char_in]. rewrite IH, orb_false_r.
  apply Ascii.eqb_neq. congruence.
Qed.

Lemma char_in_zfill c w s :
  c ≠ "0"%char → Py.char_in c (Py.zfill w s) = Py.char_in c s.
Proof.
  intros Hc. unfold Py.zfill. by rewrite char_in_append, char_in_zeros.
Qed.

Lemma jp_path_symbol row : jp_path row = jp_symbol row +:+ ".csv".
Proof. unfold jp_path, jp_symbol. by rewrite append_assoc_s. Qed.

Lemma nonempty_append a b : b ≠ "" → a +:+ b ≠ "".
Proof.
  intros Hb Hab. apply (f_equal String.length) in Hab.
  rewrite length_append_s in Hab. destruct b; [done | simpl in Hab; lia].
Qed.

End artifact_names.

(** X15.  The analyzer reads back from the name of an artifact what the
    download put into it.  For an artifact code_name.csv of the CN or US
    download, whose code holds no "_", the stem splits into exactly that
    code and that name.  For a JP artifact, named after the symbol alone,
    ticker and company name are both the symbol (the padded code followed
    by ".T"), provided the code holds no "_". *)
Theorem artifact_name_read_back :
  (∀ code name,
     Py.char_in "_" code = false →
     Analyzer.ticker_and_name (Py.stem (code +:+ "_" +:+ name +:+ ".csv"))
     = (code, name))
  ∧ (∀ row,
       Py.char_in "_" (JP.code (JP.target row)) = false →
       Analyzer.ticker_and_name (Py.stem (jp_path row))
       = (jp_symbol row, jp_symbol row)).
Proof.
  unfold Analyzer.ticker_and_name. split.
  - intros code name Hcode.
    replace (code +:+ "_" +:+ name +:+ ".csv")
      with ((code +:+ "_" +:+ name) +:+ ".csv")
      by (by rewrite !append_assoc_s).
    rewrite stem_csv by (by apply nonempty_append).
    change (code +:+ "_" +:+ name) with (code +:+ String "_" name).
    by rewrite split1_append.
  - intros row Hjp.
    rewrite jp_path_symbol, stem_csv
      by (by apply nonempty_append).
    rewrite split1_none; [done|].
    unfold jp_symbol. rewrite char_in_append, char_in_zfill by done.
    by rewrite Hjp.
Qed.

Lemma artifact_name_read_back_witness :
  Analyzer.ticker_and_name (Py.stem "600519_Kweichow_Moutai.csv")
  = ("600519", "Kweichow_Moutai")
  ∧ Analyzer.ticker_and_name (Py.stem "1301.T.csv") = ("1301.T", "1301.T").
Proof.
  split.
  - apply (proj1 artifact_name_read_back "600519" "Kweichow_Moutai").
    reflexivity.
  - apply (proj2 artifact_name_read_back
             (JP.mkEntry (JP.mkTarget "1301" "Kyokuyo" "T") "done")).
    reflexivity.
Defined.

(** X16.  What a JP download writes is what the first-run scan of
    build_manifest looks for, for codes of four characters or more without
    a dot: when the artifact of a row is in the data directory, every
    listed target with that code starts as [done].  A code shorter than
    four characters is padded in the artifact's name, so the scan does not
    find it: with that artifact alone in the directory the target starts as
    [pending]. *)
Theorem artifact_recognised_on_first_run (row : JP.Entry)
    (Hdot : Py.char_in "." (JP.code (JP.target row)) = false) :
  (4 ≤ String.length (JP.code (JP.target row)) →
   ∀ listdir df_list t,
     jp_path row ∈ listdir → t ∈ df_list →
     JP.code t = JP.code (JP.target row) →
     JP.mkEntry t "done" ∈ (JP.build_manifest None listdir df_list).1)
  ∧ (String.length (JP.code (JP.target row)) < 4 →
     (JP.build_manifest None [jp_path row] [JP.target row]).1
     = [JP.mkEntry (JP.target row) "pending"]).
Proof.
  assert (Hhead : Py.split_head "." (jp_path row)
                  = Py.zfill 4 (JP.code (JP.target row))).
  { unfold jp_path. change (?z +:+ ".T.csv") with (z +:+ String "." "T.csv").
    apply split_head_append. by rewrite char_in_zfill. }
  assert (Hend : Py.endswith (jp_path row) ".T.csv" = true)
    by apply endswith_append.
  split.
  - intros Hlen listdir df_list t Hfile Ht Hc.
    rewrite zfill_long in Hhead by done.
    destruct df_list as [|t0 rest]; [by apply elem_of_nil in Ht|].
    cbn [JP.build_manifest fst]. unfold JP.fresh_manifest.
    apply list_elem_of_fmap. exists t. split; [|done].
    rewrite bool_decide_eq_true_2; [done|].
    apply existing_files_spec. exists (jp_path row). by rewrite Hc.
  - intros Hlen. cbn [JP.build_manifest fst]. unfold JP.fresh_manifest.
    simpl. rewrite bool_decide_eq_false_2; [done|].
    intros (f & Hf & _ & Hh)%existing_files_spec.
    apply list_elem_of_singleton in Hf as ->. rewrite Hhead in Hh.
    apply (f_equal String.length) in Hh. rewrite zfill_length in Hh. lia.
Qed.

Lemma artifact_recognised_on_first_run_witness :
  let t := JP.mkTarget "1301" "Kyokuyo" "T" in
  JP.mkEntry t "done"
    ∈ (JP.build_manifest None ["notes.txt"; "1301.T.csv"] [t]).1
  ∧ (JP.build_manifest None ["0123.T.csv"] [JP.mkTarget "123" "Short" "T"]).1
    = [JP.mkEntry (JP.mkTarget "123" "Short" "T") "pending"].
Proof.
  intros t. split.
  - refine (proj1 (artifact_recognised_on_first_run (JP.mkEntry t "pending") _)
              _ ["notes.txt"; "1301.T.csv"] [t] t _ _ _);
      [reflexivity | simpl; lia
      | apply list_elem_of_further, list_elem_of_here
      | apply list_elem_of_here | reflexivity].
  - refine (proj2 (artifact_recognised_on_first_run
              (JP.mkEntry (JP.mkTarget "123" "Short" "T") "pending") _) _);
      [reflexivity | simpl; lia].
Defined.

(** ** The US and CN lists *)

Section us_list.

Lemma us_list_cases today (cache : option US.ListCache) nasdaq other :
  let fetched := elements (list_to_set (nasdaq ++ other) : gset string) in
  let r := US.get_full_stock_list today cache nasdaq other in
  (∃ c, cache = Some c ∧ US.cache_date c = today
        ∧ US.threshold ≤ length (US.cache_data c)
        ∧ r = (US.cache_data c, cache))
  ∨ (US.todays_cache today cache = None
     ∧ ((US.threshold ≤ length fetched
         ∧ r = (fetched, Some (US.mkCache today fetched)))
        ∨ (length fetched < US.threshold
           ∧ ((∃ c, cache = Some c ∧ r = (US.cache_data c, cache))
              ∨ (cache = None ∧ r = (fetched, None)))))).
Proof.
  intros fetched r. subst r. unfold US.get_full_stock_list.
  destruct (US.todays_cache today cache) as [data|] eqn:Htoday.
  - left. unfold US.todays_cache in Htoday. destruct cache as [c|]; [|done].
    destruct (bool_decide (US.cache_date c = today)) eqn:Hd; [|done].
    destruct (US.threshold <=? length (US.cache_data c)) eqn:Hl; [|done].
    simpl in Htoday. injection Htoday as <-. exists c.
    apply bool_decide_eq_true in Hd. apply Nat.leb_le in Hl. done.
  - right. split; [done|]. fold fetched.
    destruct (US.threshold <=? length fetched) eqn:Hl.
    + left. by apply Nat.leb_le in Hl.
    + right. apply Nat.leb_gt in Hl. split; [done|].
      destruct cache as [c|]; [left; eauto | by right].
Qed.

End us_list.

(** X17.  Once the US list cache holds at least 3000 items without
    repetition it always does, and every resolution returns such a list,
    whatever the two sites answer: the cache is only ever replaced by a
    fresh list of at least 3000 distinct items, and the list returned is
    the cache or that fresh list. *)
Theorem us_list_cache_stays_full (today : nat) (c : US.ListCache)
    (nasdaq other : list string)
    (Hfull : US.threshold ≤ length (US.cache_data c))
    (Hdistinct : NoDup (US.cache_data c)) :
  let r := US.get_full_stock_list today (Some c) nasdaq other in
  US.threshold ≤ length r.1 ∧ NoDup r.1
  ∧ ∃ c', r.2 = Some c' ∧ US.cache_data c' = r.1.
Proof.
  intros r. subst r.
  destruct (us_list_cases today (Some c) nasdaq other)
    as [(c0 & [= <-] & _ & _ & ->)
       | (_ & [(Hl & ->) | (_ & [(c0 & [= <-] & ->) | ([=] & _)])])];
    cbn [fst snd]; (split; [done|]); (split; [|eauto]); try done.
  apply NoDup_elements.
Qed.

Lemma us_list_cache_stays_full_witness :
  let c := US.mkCache 19 ((λ k, "T&" +:+ pretty k) <$> seq 0 3000) in
  US.threshold ≤ length (US.get_full_stock_list 20 (Some c) ["AAPL&Apple"] []).1.
Proof.
  intros c.
  refine (proj1 (us_list_cache_stays_full 20 c ["AAPL&Apple"] [] _ _)).
  - cbn [US.cache_data c]. rewrite length_fmap, length_seq.
    unfold US.threshold. lia.
  - cbn [US.cache_data c]. apply NoDup_fmap_2; [|apply NoDup_seq].
    intros x y Heq. apply (inj (String.append "T&")) in Heq.
    by apply (inj pretty) in Heq.
Defined.

(** X18.  A list fetched from the sites holds each contributed row exactly
    once.  And the resolution is stable within a day: once it has returned
    today's cache, or has fetched at least 3000 items (which it then
    persists), every later resolution of the day returns the same list and
    leaves the cache as it is, whatever the sites answer then. *)
Theorem us_list_same_day (today : nat) (cache : option US.ListCache)
    (nasdaq other nasdaq' other' : list string)
    (Hvalid : US.todays_cache today cache ≠ None
              ∨ US.threshold
                ≤ length (elements (list_to_set (nasdaq ++ other)
                                      : gset string))) :
  let r := US.get_full_stock_list today cache nasdaq other in
  US.get_full_stock_list today r.2 nasdaq' other' = r
  ∧ (US.todays_cache today cache = None →
     NoDup r.1 ∧ ∀ x, x ∈ r.1 ↔ x ∈ nasdaq ++ other).
Proof.
  intros r. subst r.
  destruct (us_list_cases today cache nasdaq other)
    as [(c & -> & Hd & Hl & Hr)
       | (Hnone & [(Hl & Hr) | (Hl & _)])].
  - rewrite Hr. cbn [fst snd].
    assert (Ht : US.todays_cache today (Some c) = Some (US.cache_data c)).
    { unfold US.todays_cache.
      rewrite bool_decide_eq_true_2 by done.
      by replace (US.threshold <=? length (US.cache_data c)) with true
        by (symmetry; by apply Nat.leb_le). }
    split; [|by rewrite Ht]. unfold US.get_full_stock_list. by rewrite Ht.
  - rewrite Hr. cbn [fst snd]. split.
    + unfold US.get_full_stock_list, US.todays_cache. cbn [US.cache_date
        US.cache_data]. rewrite bool_decide_eq_true_2 by done.
      by replace (US.threshold <=? _) with true
        by (symmetry; by apply Nat.leb_le).
    + intros _. split; [apply NoDup_elements|].
      intros x. by rewrite elem_of_elements, elem_of_list_to_set.
  - destruct Hvalid as [? | ?]; [done | lia].
Qed.

Lemma us_list_same_day_witness :
  let c := US.mkCache 20 ((λ k, "T&" +:+ pretty k) <$> seq 0 3000) in
  US.get_full_stock_list 20
    (US.get_full_stock_list 20 (Some c) ["AAPL&Apple"] []).2 [] ["IBM&IBM"]
  = US.get_full_stock_list 20 (Some c) ["AAPL&Apple"] [].
Proof.
  intros c.
  refine (proj1 (us_list_same_day 20 (Some c) ["AAPL&Apple"] [] [] ["IBM&IBM"]
                   _)).
  left. unfold US.todays_cache. cbn [US.cache_date US.cache_data c].
  rewrite length_fmap, length_seq. rewrite bool_decide_eq_true_2 by done.
  by replace (US.threshold <=? 3000) with true by (symmetry; by apply Nat.leb_le).
Defined.

(** X19.  The CN resolution never falls back to a cache of another day:
    with such a cache its result is the one it would give without any
    cache.  It persists a list only when the first interface gives more
    than 1000 items; a list from the backup interface, or the built-in
    one, is returned without being persisted.  With a cache of the day it
    returns the cache and asks no interface. *)
Theorem cn_list_resolution (today : nat) (cache : option CN.ListCache)
    (spot_em info_a : result (list string)) :
  let r := CN.get_cn_list today cache spot_em info_a in
  (∀ c, cache = Some c → CN.cache_date c = today →
     r = (CN.cache_data c, cache))
  ∧ ((∀ c, cache = Some c → CN.cache_date c ≠ today) →
     r.1 = (CN.get_cn_list today None spot_em info_a).1
     ∧ (r.2 = cache
        ∨ ∃ res, spot_em = Ret res ∧ 1000 < length res
                 ∧ r = (res, Some (CN.mkCache today res)))
     ∧ (r.2 = cache →
        r.1 = match info_a with
              | Ret res_bak => res_bak
              | Raise _ => ["600519&貴州茅台"; "000001&平安銀行"]
              end)).
Proof.
  intros r. subst r. unfold CN.get_cn_list. split.
  - intros c -> Hd. by rewrite bool_decide_eq_true_2.
  - intros Hstale.
    assert (Hq : ∀ q : list string * option CN.ListCache,
               match cache with
               | Some c =>
                   if bool_decide (CN.cache_date c = today)
                   then (CN.cache_data c, cache) else q
               | None => q
               end = q).
    { intros q. destruct cache as [c|]; [|done].
      by rewrite bool_decide_eq_false_2 by eauto. }
    rewrite Hq. clear Hq.
    destruct spot_em as [res|e]; cbn [fst snd].
    + destruct (1000 <? length res) eqn:Hl; cbn [fst snd].
      * apply Nat.ltb_lt in Hl. split; [done|]. split; [right; eauto|].
        intros Hc. destruct cache as [c|]; [|done]. injection Hc as <-.
        by destruct (Hstale _ eq_refl).
      * split; [by destruct info_a|]. split; [left; by destruct info_a|].
        intros _. by destruct info_a.
    + split; [by destruct info_a|]. split; [left; by destruct info_a|].
      intros _. by destruct info_a.
Qed.

Lemma cn_list_resolution_witness :
  let stale := CN.mkCache 19 ["600000&Pudong Bank"] in
  CN.get_cn_list 20 (Some (CN.mkCache 20 ["600000&Pudong Bank"]))
    (Raise (Exception "spot_em")) (Raise (Exception "info_a"))
  = (["600000&Pudong Bank"], Some (CN.mkCache 20 ["600000&Pudong Bank"]))
  ∧ (CN.get_cn_list 20 (Some stale) (Raise (Exception "spot_em"))
       (Ret ["000001&Ping An"])).1
    = (CN.get_cn_list 20 None (Raise (Exception "spot_em"))
         (Ret ["000001&Ping An"])).1.
Proof.
  intros stale. split.
  - exact (proj1 (cn_list_resolution 20
                    (Some (CN.mkCache 20 ["600000&Pudong Bank"]))
                    (Raise (Exception "spot_em")) (Raise (Exception "info_a")))
                 (CN.mkCache 20 ["600000&Pudong Bank"]) eq_refl eq_refl).
  - refine (proj1 (proj2 (cn_list_resolution 20 (Some stale) _ _) _)).
    intros c [= <-]. simpl. lia.
Defined.

(** ** The runs of downloader_us.main and downloader_cn.main *)

Section tallies.
Implicit Types (st : gmap string nat) (key : string).

Lemma bump_counters key st :
  key ∈ us_statuses → has_counters st →
  ∃ n, st !! key = Some n
       ∧ has_counters (<[key := n + 1]> st)
       ∧ counters_total (<[key := n + 1]> st) = S (counters_total st).
Proof.
  intros Hkey Hst. destruct (Hst key Hkey) as [n Hn]. exists n.
  split; [done|]. split.
  - intros k Hk. destruct (decide (key = k)) as [->|Hne].
    + rewrite lookup_insert_eq. eauto.
    + rewrite lookup_insert_ne by done. by apply Hst.
  - unfold counters_total, us_statuses in *.
    repeat (apply elem_of_cons in Hkey as [->|Hkey]);
      [..|by apply elem_of_nil in Hkey];
      rewrite lookup_insert_eq; rewrite !lookup_insert_ne by done;
      rewrite Hn; simpl; lia.
Qed.

Lemma stats0_counters : has_counters US.stats0 ∧ counters_total US.stats0 = 0.
Proof.
  split; [|by vm_compute].
  intros k Hk. unfold us_statuses in Hk.
  repeat (apply elem_of_cons in Hk as [->|Hk]);
    [..|by apply elem_of_nil in Hk]; vm_compute; eauto.
Qed.

Lemma us_tally_total results st :
  Forall (λ x, ∃ o : US.Outcome, x = Ret o ∧ o.1 ∈ us_statuses) results →
  has_counters st →
  ∃ st', US.tally results st = Ret st' ∧ has_counters st'
         ∧ counters_total st' = counters_total st + length results.
Proof.
  intros H. revert st. induction H as [|x results (o & -> & Ho) _ IH];
    intros st Hst.
  - exists st. simpl. split; [done|]. split; [done | lia].
  - destruct (bump_counters o.1 st Ho Hst) as (n & Hn & Hst' & Htot).
    cbn [US.tally]. unfold US.bump. rewrite Hn.
    destruct (IH _ Hst') as (st' & -> & ? & Ht).
    exists st'. split; [done|]. split; [done|]. rewrite Ht, Htot. simpl. lia.
Qed.

Lemma cn_tally_total results n naps st :
  Forall (λ x, ∃ o : CN.Outcome, x = Ret o ∧ o.1 ∈ us_statuses) results →
  has_counters st →
  ∃ st' naps', CN.tally results n naps st = Ret (st', naps')
    ∧ has_counters st'
    ∧ counters_total st' = counters_total st + length results
    ∧ naps' + n / 100 = naps + (n + length results) / 100.
Proof.
  intros H. revert n naps st.
  induction H as [|x results (o & -> & Ho) _ IH]; intros n naps st Hst.
  - exists st, naps. cbn [CN.tally length]. by rewrite !Nat.add_0_r.
  - destruct (bump_counters o.1 st Ho Hst) as (k & Hk & Hst' & Htot).
    cbn [CN.tally]. unfold CN.bump. rewrite Hk.
    destruct (IH (S n) (if S n mod 100 =? 0 then S naps else naps) _ Hst')
      as (st' & naps' & -> & ? & Ht & Hn).
    exists st', naps'. split; [done|]. split; [done|].
    split; [rewrite Ht, Htot; simpl; lia|].
    pose proof (div_100_succ n) as Hd. cbn [length].
    replace (n + S (length results)) with (S n + length results) by lia.
    destruct (S n mod 100 =? 0); lia.
Qed.

Lemma omap_fst_lookup_length {A B} (l : list (A * B)) (ks : list nat) :
  Forall (λ k, k < length l) ks →
  length (omap (λ k, fst <$> l !! k) ks) = length ks.
Proof.
  induction 1 as [|k ks Hk _ IH]; [done|].
  apply lookup_lt_is_Some in Hk as [x Hx].
  change (omap (λ k, fst <$> l !! k) (k :: ks))
    with (match fst <$> l !! k with
          | Some x => x :: omap (λ k, fst <$> l !! k) ks
          | None => omap (λ k, fst <$> l !! k) ks
          end).
  rewrite Hx. simpl. by rewrite IH.
Qed.

Lemma us_completed (env : US.Env) (items : list string) :
  Forall (λ x, ∃ o : US.Outcome, x = Ret o ∧ o.1 ∈ us_statuses)
    (omap (λ k, fst <$>
             imap (λ k it, US.download_stock_data (US.safe_name env)
                             (US.fs env k) (US.yf env k) it net0) items
             !! k) (US.schedule env)).
Proof.
  apply Forall_forall. intros x (k & _ & Hk)%list_elem_of_omap.
  apply fmap_Some in Hk as ([x' n] & Hk & ->).
  rewrite list_lookup_imap in Hk.
  apply fmap_Some in Hk as (it & _ & Hrun). simpl.
  destruct (us_download_total (US.safe_name env) (US.fs env k) (US.yf env k)
              it net0) as (o & s' & Ho & ?).
  rewrite Ho in Hrun. injection Hrun as -> _. eauto.
Qed.

Lemma cn_completed today (env : CN.Env) (items : list string) :
  Forall (λ x, ∃ o : CN.Outcome, x = Ret o ∧ o.1 ∈ us_statuses)
    (omap (λ k, fst <$>
             imap (λ k it, CN.download_one today (CN.fs env k) (CN.yf env k)
                             it net0) items
             !! k) (CN.schedule env)).
Proof.
  apply Forall_forall. intros x (k & _ & Hk)%list_elem_of_omap.
  apply fmap_Some in Hk as ([x' n] & Hk & ->).
  rewrite list_lookup_imap in Hk.
  apply fmap_Some in Hk as (it & _ & Hrun). simpl.
  destruct (cn_download_total today (CN.fs env k) (CN.yf env k) it net0)
    as (o & s' & Ho & ?).
  rewrite Ho in Hrun. injection Hrun as -> _. eauto.
Qed.

End tallies.

(** X20.  The loop of the US main never stops on a missing counter or on an
    exception of a worker: every status that a download can return is one
    of the four counters.  When the run has items, the counters at the
    report add up to the number of results consumed, which is the number
    of futures when each completes once; when the list is empty nothing is
    submitted. *)
Theorem us_main_counts (today : nat) (cache : option US.ListCache)
    (nasdaq other : list string) (env : US.Env) :
  let r := US.main today cache nasdaq other env in
  US.items r = (US.get_full_stock_list today cache nasdaq other).1
  ∧ (US.items r = [] → US.stats r = Ret None ∧ US.nets r = [])
  ∧ (US.items r ≠ [] →
     ∃ st, US.stats r = Ret (Some st)
           ∧ (Forall (λ k, k < length (US.items r)) (US.schedule env) →
              US.count "success" st + US.count "exists" st
              + US.count "empty" st + US.count "error" st
              = length (US.schedule env))).
Proof.
  intros r. subst r. unfold US.main.
  destruct (US.get_full_stock_list today cache nasdaq other)
    as [[|it items] cache']; cbn [fst US.items US.stats US.nets].
  - split; [done|]. split; [done | by intros ?].
  - split; [done|]. split; [done|]. intros _.
    destruct stats0_counters as [H0 Ht0].
    destruct (us_tally_total _ US.stats0 (us_completed env (it :: items)) H0)
      as (st & Hst & _ & Htot).
    rewrite Hst. exists st. split; [done|]. intros Hsched.
    rewrite Ht0 in Htot.
    change (counters_total st = length (US.schedule env)).
    rewrite Htot, omap_fst_lookup_length; [done|]. by rewrite length_imap.
Qed.

Lemma us_main_counts_witness :
  let env := US.mkEnv id (λ _, ∅) (λ _, timing_out) [1; 0] in
  let r := US.main 20 None ["AAPL&Apple Inc"; "MSFT"] [] env in
  ∃ st, US.stats r = Ret (Some st)
        ∧ (Forall (λ k, k < length (US.items r)) (US.schedule env) →
           US.count "success" st + US.count "exists" st
           + US.count "empty" st + US.count "error" st
           = length (US.schedule env)).
Proof.
  intros env r.
  apply (proj2 (proj2 (us_main_counts 20 None ["AAPL&Apple Inc"; "MSFT"] []
                         env))).
  vm_compute. discriminate.
Defined.

(** X21.  The report of the CN main: total is the number of items; when
    the list has items the loop never stops on a missing counter or on an
    exception of a worker, success (success + exists) and fail (error +
    empty) add up to the number of results consumed, which is total when
    each future completes once, and the loop has paused once for every
    full hundred of results.  With an empty list the report is all zero
    and nothing is submitted. *)
Theorem cn_main_report (today : nat) (cache : option CN.ListCache)
    (spot_em info_a : result (list string)) (env : CN.Env) :
  let r := CN.main today cache spot_em info_a env in
  CN.items r = (CN.get_cn_list today cache spot_em info_a).1
  ∧ (CN.items r = [] →
     CN.report r = Ret (mkStats 0 0 0, 0) ∧ CN.nets r = [])
  ∧ (CN.items r ≠ [] →
     ∃ rep naps, CN.report r = Ret (rep, naps)
       ∧ total rep = length (CN.items r)
       ∧ (Forall (λ k, k < length (CN.items r)) (CN.schedule env) →
          success rep + fail rep = length (CN.schedule env)
          ∧ naps = length (CN.schedule env) / 100)).
Proof.
  intros r. subst r. unfold CN.main.
  destruct (CN.get_cn_list today cache spot_em info_a)
    as [[|it items] cache']; cbn [fst CN.items CN.report CN.nets].
  - split; [done|]. split; [done | by intros ?].
  - split; [done|]. split; [done|]. intros _.
    destruct stats0_counters as [H0 Ht0].
    destruct (cn_tally_total _ 0 0 CN.stats0
                (cn_completed today env (it :: items)) H0)
      as (st & naps & Hst & _ & Htot & Hnaps).
    rewrite Hst. eexists _, naps. split; [done|].
    cbn [total success fail]. split; [done|]. intros Hsched.
    change (counters_total CN.stats0) with (counters_total US.stats0) in Htot.
    rewrite Ht0 in Htot.
    rewrite omap_fst_lookup_length in Htot, Hnaps
      by (by rewrite length_imap).
    rewrite Nat.Div0.div_0_l in Hnaps.
    assert (CN.count "success" st + CN.count "exists" st
            + (CN.count "error" st + CN.count "empty" st)
            = counters_total st) as ->
      by (unfold counters_total, CN.count; lia).
    cbn [Nat.add] in Htot, Hnaps. split; lia.
Qed.

Lemma cn_main_report_witness :
  let env := CN.mkEnv (λ _, ∅) (λ _, timing_out) [0] in
  let r := CN.main 20 None (Raise (Exception "spot_em"))
             (Ret ["600519&Moutai"]) env in
  ∃ rep naps, CN.report r = Ret (rep, naps)
    ∧ total rep = length (CN.items r)
    ∧ (Forall (λ k, k < length (CN.items r)) (CN.schedule env) →
       success rep + fail rep = length (CN.schedule env)
       ∧ naps = length (CN.schedule env) / 100).
Proof.
  intros env r.
  apply (proj2 (proj2 (cn_main_report 20 None (Raise (Exception "spot_em"))
                         (Ret ["600519&Moutai"]) env))).
  vm_compute. discriminate.
Defined.

(** ** classify_security *)

Section classify.
Implicit Types (sub s a b : string).

Lemma prefix_spec sub s : String.prefix sub s = true ↔ ∃ b, s = sub +:+ b.
Proof.
  revert s. induction sub as [|c sub IH]; intros s.
  - split; [intros _; exists s; reflexivity | intros _; by destruct s].
  - destruct s as [|c' s]; simpl.
    { split; [done | intros [b Hb]; by rewrite append_cons in Hb]. }
    destruct (ascii_dec c c') as [->|Hne].
    + rewrite IH. split; [intros [b ->]; eauto|].
      intros [b Hb]. rewrite append_cons in Hb. injection Hb as ->. eauto.
    + split; [done|]. intros [b Hb]. rewrite append_cons in Hb.
      by injection Hb as <-.
Qed.

Lemma contains_spec sub s :
  Py.contains sub s = true ↔ ∃ a b, s = a +:+ sub +:+ b.
Proof.
  induction s as [|c s IH]; cbn [Py.contains].
  - rewrite orb_false_r, prefix_spec. split.
    + intros [b Hb]. exists "", b. done.
    + intros (a & b & Hab). destruct a; [eauto|]. by rewrite append_cons in Hab.
  - rewrite orb_true_iff, prefix_spec, IH. split.
    + intros [[b Hb] | (a & b & ->)]; [by exists "", b|].
      exists (String c a), b. by rewrite append_cons.
    + intros (a & b & Hab). destruct a as [|c' a]; [left; eauto|].
      right. rewrite append_cons in Hab. injection Hab as -> ->. eauto.
Qed.

Lemma contains_within sub s s' :
  Py.contains sub s = true → (∃ a b, s' = a +:+ s +:+ b) →
  Py.contains sub s' = true.
Proof.
  intros (a & b & ->)%contains_spec (a' & b' & ->).
  apply contains_spec. exists (a' +:+ a), (b +:+ b').
  by rewrite !append_assoc_s.
Qed.

End classify.

(** X22.  classify_security keeps a security as common stock exactly when
    it is no ETF and its name in upper case contains none of the eight
    keywords; everything else is excluded.  The keywords are matched as
    parts of the name, not as words: a name is excluded as soon as a
    keyword occurs anywhere inside it, so when a name is excluded for a
    keyword, every name whose upper-case form contains the upper-case form
    of the first is excluded too. *)
Theorem classify_security_rule (upper : string → string) (name : string)
    (is_etf : bool) :
  US.classify_security upper name is_etf ∈ ["Exclude"; "Common Stock"]
  ∧ (US.classify_security upper name is_etf = "Common Stock" ↔
     is_etf = false
     ∧ ∀ kw a b, kw ∈ US.exclude_keywords → upper name ≠ a +:+ kw +:+ b)
  ∧ (∀ name' is_etf',
       US.classify_security upper name false = "Exclude" →
       (∃ a b, upper name' = a +:+ upper name +:+ b) →
       US.classify_security upper name' is_etf' = "Exclude").
Proof.
  assert (Hor : ∀ n e, US.classify_security upper n e = "Exclude"
                       ∨ US.classify_security upper n e = "Common Stock").
  { intros n e. unfold US.classify_security.
    destruct e; [by left|]. destruct (existsb _ _); [by left | by right]. }
  split; [destruct (Hor name is_etf) as [-> | ->]; in_list|].
  split.
  - rewrite classify_common, Forall_forall. split.
    + intros [He Hall]. split; [done|]. intros kw a b Hkw Heq.
      specialize (Hall kw Hkw).
      assert (Py.contains kw (upper name) = true) as Hc
        by (apply contains_spec; eauto). by rewrite Hc in Hall.
    + intros [He Hall]. split; [done|]. intros kw Hkw.
      destruct (Py.contains kw (upper name)) eqn:Hc; [|done].
      apply contains_spec in Hc as (a & b & Hab). by destruct (Hall kw a b).
  - intros name' is_etf' Hex Hin.
    destruct (Hor name' is_etf') as [? | Hcs]; [done|].
    apply classify_common in Hcs as [_ Hall'].
    destruct (Hor name false) as [_ | Hcs]; [|congruence].
    assert (¬ Forall (λ kw, Py.contains kw (upper name) = false)
                     US.exclude_keywords) as Hnot.
    { intros Hall. assert (US.classify_security upper name false
                           = "Common Stock") by (by apply classify_common).
      congruence. }
    destruct Hnot. apply Forall_forall. intros kw Hkw.
    rewrite Forall_forall in Hall'. specialize (Hall' kw Hkw).
    destruct (Py.contains kw (upper name)) eqn:Hc; [|done].
    by rewrite (contains_within kw (upper name) (upper name') Hc Hin) in Hall'.
Qed.

Lemma classify_security_rule_witness :
  US.classify_security id "UNITED AIRLINES HOLDINGS" false = "Exclude".
Proof.
  refine (proj2 (proj2 (classify_security_rule id "UNIT" false))
            "UNITED AIRLINES HOLDINGS" false _ _).
  - reflexivity.
  - exists "", "ED AIRLINES HOLDINGS". reflexivity.
Defined.
